(** * Newsletter generation route: a shallow embedding of
    [src/app/api/generate-newsletter/route.ts] and the properties of its
    request handler.

    The handler is glue over three external services (a research API reached
    through axios, a text-generation API, a markdown renderer).  JavaScript
    values are embedded as an inductive type, strings as lists of UTF-16
    code units, numbers as IEEE 754 binary64 values ([spec_float] at
    precision 53), objects as finite maps from property names to values.
    The replies of the external services for one request are collected in a
    record; every theorem quantifies over that record, so it holds whatever
    the services answer. *)

From Stdlib Require Import ZArith NArith List Ascii String QArith Qabs.
From Stdlib Require Import Floats.SpecFloat.
From stdpp Require Import base option list gmap fin_maps.

Set Default Proof Using "Type".
#[local] Set Warnings "-register-all".

#[local] Open Scope Z_scope.

(** ** Strings: sequences of UTF-16 code units *)

Module JsString.

(** A code unit is a natural number below 65536. *)
Definition of_ascii (s : String.string) : list N :=
  List.map N_of_ascii (list_ascii_of_string s).

(** The code units matched by [\s] in a regular expression, which are
    also the ones [String.prototype.trim] removes: WhiteSpace and
    LineTerminator of ECMAScript. *)
Definition is_space (c : N) : bool :=
  ((9 <=? c) && (c <=? 13) || (c =? 32) || (c =? 160) || (c =? 5760)
   || (8192 <=? c) && (c <=? 8202) || (c =? 8232) || (c =? 8233)
   || (c =? 8239) || (c =? 8287) || (c =? 12288) || (c =? 65279))%N.

Fixpoint skip_spaces (s : list N) : list N :=
  match s with
  | c :: s' => if is_space c then skip_spaces s' else s
  | [] => []
  end.

(** [s.trim()] *)
Definition trim (s : list N) : list N :=
  reverse (skip_spaces (reverse (skip_spaces s))).

Fixpoint starts_with (p s : list N) : bool :=
  match p, s with
  | [], _ => true
  | a :: p', b :: s' => (a =? b)%N && starts_with p' s'
  | _ :: _, [] => false
  end.

(** [s.includes(needle)] *)
Fixpoint includes (s needle : list N) : bool :=
  starts_with needle s ||
  match s with
  | [] => false
  | _ :: s' => includes s' needle
  end.


(** Decimal digits of a natural number, most significant first. *)
Fixpoint decimal_go (fuel : nat) (n : N) (acc : list N) : list N :=
  let acc' := (48 + n mod 10)%N :: acc in
  match fuel with
  | O => acc'
  | S fuel' => if (n / 10 =? 0)%N then acc' else decimal_go fuel' (n / 10)%N acc'
  end.

Definition decimal (n : N) : list N :=
  decimal_go (N.to_nat (N.log2 n)) n [].

Definition is_digit (c : N) : bool := ((48 <=? c) && (c <=? 57))%N.

End JsString.

Abbreviation lit := JsString.of_ascii.

(** ** Numbers: IEEE 754 binary64 *)

Module Number.
Import JsString.

Definition prec : Z := 53.
Definition emax : Z := 1024.

(** A numeric literal of the source that denotes an integer. *)
Definition of_Z (z : Z) : spec_float := binary_normalize prec emax z 0 false.

(** [x >= y] *)
Definition ge (x y : spec_float) : bool := SFleb y x.

(** [x / y] *)
Definition div (x y : spec_float) : spec_float := SFdiv prec emax x y.

(** The real value of a positive finite number [m * 2^e], as a fraction. *)
Definition to_Q (m : positive) (e : Z) : Q :=
  if 0 <=? e then inject_Z (Z.pos m * 2 ^ e)
  else Qmake (Z.pos m) (Z.to_pos (2 ^ (- e))).

(** The binary64 value nearest to a positive fraction (ties to even). *)
Definition of_Q (q : Q) : spec_float :=
  let '(mz, ez, lz) := SFdiv_core_binary prec emax (Qnum q) 0 (Z.pos (Qden q)) 0 in
  binary_round_aux prec emax false mz ez lz.

Definition pow10 (j : Z) : Q :=
  if 0 <=? j then inject_Z (10 ^ j) else Qmake 1 (Z.to_pos (10 ^ (- j))).

Definition Qfloor_N (q : Q) : N := Z.to_N (Qnum q / Z.pos (Qden q)).

(** The least [j >= 1] with [q * 10^j >= 1], for [0 < q < 1]. *)
Fixpoint first_digit_at (fuel : nat) (j : Z) (q : Q) : Z :=
  match fuel with
  | O => j
  | S fuel' =>
      if Qle_bool 1 (Qmult q (pow10 j)) then j
      else first_digit_at fuel' (j + 1) q
  end.

(** The [n] with [10^(n-1) <= q < 10^n], for a positive fraction [q]. *)
Definition decimal_exponent (q : Q) : Z :=
  if Qle_bool 1 q then Z.of_nat (length (decimal (Qfloor_N q)))
  else 1 - first_digit_at 400 1 q.

Definition Qdist (a b : Q) : Q := Qabs (Qminus a b).

(** The candidates [(n, s)] with [k] digits that read back as [x]:
    [10^(k-1) <= s < 10^k] and the nearest binary64 value to
    [s * 10^(n-k)] is [x]. *)
Definition candidates (x : spec_float) (q : Q) (k : Z) : list (Z * N) :=
  let n0 := decimal_exponent q in
  let at_n (n : Z) : list (Z * N) :=
    let f := Qfloor_N (Qmult q (pow10 (k - n))) in
    List.filter
      (λ '(n, s),
         (Z.of_N s <? 10 ^ k) && (10 ^ (k - 1) <=? Z.of_N s)
         && match SFcompare (of_Q (Qmult (inject_Z (Z.of_N s)) (pow10 (n - k)))) x with
            | Some Eq => true
            | _ => false
            end)
      [(n, f); (n, (f + 1)%N)] in
  at_n n0 ++ at_n (n0 + 1).

(** Of several candidates the one nearest to the value; of two equally
    near ones the even one. *)
Definition closer (q : Q) (k : Z) (a b : Z * N) : Z * N :=
  let val (c : Z * N) := Qmult (inject_Z (Z.of_N (snd c))) (pow10 (fst c - k)) in
  match Qcompare (Qdist (val a) q) (Qdist (val b) q) with
  | Lt => a
  | Gt => b
  | Eq => if N.even (snd a) then a else b
  end.

Fixpoint shortest (fuel : nat) (x : spec_float) (q : Q) (k : Z) : Z * Z * N :=
  match candidates x q k with
  | c :: cs => let '(n, s) := List.fold_left (closer q k) cs c in (n, k, s)
  | [] =>
      match fuel with
      | O => (0, k, 0%N)
      | S fuel' => shortest fuel' x q (k + 1)
      end
  end.

Definition zeros (n : Z) : list N := List.repeat 48%N (Z.to_nat n).

(** [Number::toString(x, 10)] of ECMAScript. *)
Definition toString (x : spec_float) : list N :=
  match x with
  | S754_nan => lit "NaN"
  | S754_zero _ => lit "0"
  | S754_infinity s => (if s then lit "-" else []) ++ lit "Infinity"
  | S754_finite sg m e =>
      let '(n, k, s) := shortest 20 (S754_finite false m e) (to_Q m e) 1 in
      let ds := decimal s in
      let body :=
        if (k <=? n) && (n <=? 21) then ds ++ zeros (n - k)
        else if (0 <? n) && (n <=? 21) then
          take (Z.to_nat n) ds ++ lit "." ++ drop (Z.to_nat n) ds
        else if (-6 <? n) && (n <=? 0) then lit "0." ++ zeros (- n) ++ ds
        else
          let ex := lit "e" ++ (if n - 1 <? 0 then lit "-" else lit "+")
                    ++ decimal (Z.to_N (Z.abs (n - 1))) in
          if k =? 1 then ds ++ ex
          else take 1 ds ++ lit "." ++ drop 1 ds ++ ex in
      (if sg then lit "-" else []) ++ body
  end.

(** The integer nearest to [m * 2^e], the larger one of two equally near. *)
Definition round_half_up (m : positive) (e : Z) : N :=
  if 0 <=? e then Z.to_N (Z.pos m * 2 ^ e)
  else Z.to_N ((2 * Z.pos m + 2 ^ (- e)) / 2 ^ (1 - e)).

(** [m * 2^e >= 10^21] *)
Definition at_least_1e21 (m : positive) (e : Z) : bool :=
  if 0 <=? e then 10 ^ 21 <=? Z.pos m * 2 ^ e
  else 10 ^ 21 * 2 ^ (- e) <=? Z.pos m.

(** [x.toFixed(0)] *)
Definition toFixed0 (x : spec_float) : list N :=
  match x with
  | S754_finite sg m e =>
      (if sg then lit "-" else []) ++
      (if at_least_1e21 m e then toString (S754_finite false m e)
       else decimal (round_half_up m e))
  | _ => toString x
  end.

End Number.

(** ** JavaScript values *)

(** The values that JSON text denotes, and [undefined].  An object is the
    finite map of its own properties; the order of the keys is not kept. *)
Inductive jsval :=
| JUndefined
| JNull
| JBool (b : bool)
| JNum (x : spec_float)
| JStr (s : list N)
| JArr (l : list jsval)
| JObj (o : gmap (list N) jsval).

(** What a [throw] carries: an instance of [Error] with its [message]
    ([new Error(..)], a TypeError of the engine, an error of axios), or a
    value that is no instance of [Error]. *)
Inductive thrown :=
| ThrowError (message : list N)
| ThrowOther.

(** The parts of the JavaScript runtime that are taken as given: the JSON
    parser (a value, or the SyntaxError it throws), the locale data behind
    [toLocaleString], and the text the engine puts in the TypeError raised
    by using property [k] of [v]. *)
Record runtime := {
  JSON_parse : list N → thrown + jsval;
  toLocaleString : spec_float → list N → list N;
  TypeError_message : jsval → list N → list N;
}.

Module Js.
Import JsString.

(** [ToBoolean]: the test made by [!v], [if (v)] and [v || w]. *)
Definition truthy (v : jsval) : bool :=
  match v with
  | JUndefined | JNull => false
  | JBool b => b
  | JNum (S754_zero _) | JNum S754_nan => false
  | JNum _ => true
  | JStr s => negb (bool_decide (s = []))
  | JArr _ | JObj _ => true
  end.

(** The own enumerable properties, which an object spread [{...v}]
    copies: the entries of an object, the elements of an array and the
    code units of a string under their indices, nothing for the rest. *)
Definition own_props (v : jsval) : gmap (list N) jsval :=
  match v with
  | JObj o => o
  | JArr l => list_to_map (imap (λ i x, (decimal (N.of_nat i), x)) l)
  | JStr s => list_to_map (imap (λ i c, (decimal (N.of_nat i), JStr [c])) s)
  | _ => ∅
  end.

(** [{ ...a, ...v }] for an object [a] *)
Definition spread (a : gmap (list N) jsval) (v : jsval) : gmap (list N) jsval :=
  own_props v ∪ a.

(** [v.k] and [v[k]], for the property names the handler reads, none of
    which a prototype defines. *)
Definition get (rt : runtime) (v : jsval) (k : list N) : thrown + jsval :=
  match v with
  | JUndefined | JNull => inl (ThrowError (TypeError_message rt v k))
  | JStr s =>
      if bool_decide (k = lit "length") then inr (JNum (Number.of_Z (Z.of_nat (length s))))
      else inr (default JUndefined (own_props v !! k))
  | JArr l =>
      if bool_decide (k = lit "length") then inr (JNum (Number.of_Z (Z.of_nat (length l))))
      else inr (default JUndefined (own_props v !! k))
  | _ => inr (default JUndefined (own_props v !! k))
  end.

(** Whether [ToString] succeeds, as a template literal [`${v}`] needs:
    an object has the string form of [Object.prototype.toString] unless
    an own property hides that method (no property read from JSON is
    callable); an array joins the string forms of its elements. *)
Fixpoint has_string_form (v : jsval) : bool :=
  match v with
  | JObj o => match o !! lit "toString" with Some _ => false | None => true end
  | JArr l => forallb has_string_form l
  | _ => true
  end.

Definition to_string (rt : runtime) (v : jsval) : thrown + () :=
  if has_string_form v then inr ()
  else inl (ThrowError (TypeError_message rt v (lit "toString"))).

End Js.

(** ** Effects: an error monad that records the calls made *)

(** The story object built by [research_company]. *)
Record story := {
  headline : jsval;
  context : gmap (list N) jsval;
  metrics : gmap (list N) jsval;
  business_model : gmap (list N) jsval;
  analysis_points : jsval;
}.

(** What the two prompts of [generateText] are built from. *)
Inductive gen_request :=
| HookPrompt (company_name : jsval)
| StoryPrompt (story_data : story).

Inductive event :=
| AxiosPost (company_name : jsval) (api_key : list N)
| GenerateText (r : gen_request)
| RemarkProcess (markdown : list N)
| ConsoleError (label : list N) (e : thrown)
| ConsoleLog (label : list N) (text : list N).

(** A computation yields the events it caused, in order, and a value or
    what it threw. *)
Definition M (A : Type) : Type := list event * (thrown + A).

Definition ret {A} (a : A) : M A := ([], inr a).
Definition throw {A} (e : thrown) : M A := ([], inl e).
Definition emit (ev : event) : M () := ([ev], inr ()).
Definition lift {A} (r : thrown + A) : M A := ([], r).

Definition bind {A B} (m : M A) (f : A → M B) : M B :=
  match m with
  | (t, inl e) => (t, inl e)
  | (t, inr a) => let '(t', r) := f a in (t ++ t', r)
  end.

(** [try { m } catch (e) { h e }] *)
Definition try_catch {A} (m : M A) (h : thrown → M A) : M A :=
  match m with
  | (t, inl e) => let '(t', r) := h e in (t ++ t', r)
  | (t, inr a) => (t, inr a)
  end.

Declare Scope route_scope.
Notation "'let!' x ':=' m 'in' k" := (bind m (λ x, k))
  (at level 10, x name, m at level 100, k at level 200, only parsing)
  : route_scope.
Notation "'do!' m 'in' k" := (bind m (λ _, k))
  (at level 10, m at level 100, k at level 200, only parsing)
  : route_scope.
#[local] Open Scope route_scope.

(** The answers of the outside world during one request. *)
Record world := {
  env_PERPLEXITY_API_KEY : option (list N);
  axios_post : jsval → list N → thrown + jsval;
  generateText : gen_request → thrown + list N;
  remark_process : list N → thrown + list N;
}.

(** What [NextResponse.json(body, { status })] sends. *)
Record response := {
  status : Z;
  body : gmap (list N) jsval;
}.

(** ** The source, function by function *)

Module Bot.
Import JsString Js.

Definition key_headline := lit "headline".
Definition key_context := lit "context".
Definition key_metrics := lit "metrics".
Definition key_business_model := lit "business_model".
Definition key_analysis_points := lit "analysis_points".

(** [this.story_template], as the constructor sets it (lines 31-53). *)
Definition story_template : story := {|
  headline := JNull;
  context :=
    <[lit "market_size" := JNull]> (
    <[lit "key_players" := JArr []]> (
    <[lit "recent_developments" := JArr []]> ∅));
  metrics :=
    <[lit "revenue" := JNull]> (
    <[lit "funding" := JNull]> (
    <[lit "market_share" := JNull]> (
    <[lit "growth_rate" := JNull]> ∅)));
  business_model :=
    <[lit "core_offering" := JNull]> (
    <[lit "unit_economics" := JNull]> (
    <[lit "channels" := JArr []]> (
    <[lit "partnerships" := JArr []]> ∅)));
  analysis_points := JArr [];
|}.

(** [generate_hook] (lines 90-99).  The prompt is a template literal
    over [company_name], which throws when the value has no string form;
    the text of the prompt itself is not modelled. *)
Definition generate_hook (rt : runtime) (w : world) (company_name : jsval)
    : M (list N) :=
  do! lift (to_string rt company_name) in
  do! emit (GenerateText (HookPrompt company_name)) in
  let! text := lift (generateText w (HookPrompt company_name)) in
  ret (trim text).

(** [research_company] (lines 55-88) *)
Definition research_company (rt : runtime) (w : world)
    (company_name company_data : jsval) : M story :=
  let story := story_template in
  let! hook := generate_hook rt w company_name in
  let! cd_metrics := lift (get rt company_data key_metrics) in
  let! cd_business_model := lift (get rt company_data key_business_model) in
  let! cd_context := lift (get rt company_data key_context) in
  let! cd_analysis_points := lift (get rt company_data key_analysis_points) in
  ret {|
    headline := JStr hook;
    metrics := spread (metrics story) cd_metrics;
    business_model := spread (business_model story) cd_business_model;
    context := spread (context story) cd_context;
    analysis_points :=
      if truthy cd_analysis_points then cd_analysis_points else JArr [];
  |}.

(** [format_story] (lines 101-140) *)
Definition format_story (w : world) (story_data : story) : M (list N) :=
  do! emit (GenerateText (StoryPrompt story_data)) in
  let! text := lift (generateText w (StoryPrompt story_data)) in
  do! emit (ConsoleLog (lit "OpenAI Formatted Story:") text) in
  ret (trim text).

Definition rupee : list N := [8377%N].

(** [format_metrics] (lines 142-155) *)
Definition format_metrics (rt : runtime) (value : spec_float)
    (metric_type : list N) : list N :=
  if bool_decide (metric_type = lit "inr") then
    if Number.ge value (Number.of_Z 10000000) then
      rupee ++ Number.toFixed0 (Number.div value (Number.of_Z 10000000))
            ++ lit " crores"
    else rupee ++ toLocaleString rt value (lit "en-IN")
  else if bool_decide (metric_type = lit "usd") then
    if Number.ge value (Number.of_Z 1000000) then
      lit "$" ++ Number.toFixed0 (Number.div value (Number.of_Z 1000000))
              ++ lit "M"
    else lit "$" ++ toLocaleString rt value (lit "en-US")
  else Number.toString value.

End Bot.

Module Route.
Import JsString Js.

(** *** The replacement of [/(^```(?:json)?\s*|```$)/g] by the empty
    string (line 191) *)

Definition fence : list N := lit "```".

(** The first alternative, which can only match at index 0: the fence,
    the word [json] when it follows, and all the white space after it.
    The result is the text behind the match. *)
Definition match_open (s : list N) : option (list N) :=
  if starts_with fence s then
    let r := drop 3 s in
    let r := if starts_with (lit "json") r then drop 4 r else r in
    Some (skip_spaces r)
  else None.

(** The second alternative at the current index: the fence, then the end
    of the input. *)
Definition match_close (s : list N) : bool := bool_decide (s = fence).

(** The scan over the indices where [^] cannot match. *)
Fixpoint replace_rest (s : list N) : list N :=
  if match_close s then []
  else match s with
       | [] => []
       | c :: s' => c :: replace_rest s'
       end.

Definition replace_fences (s : list N) : list N :=
  match match_open s with
  | Some r => replace_rest r
  | None => replace_rest s
  end.

(** [text.replace(..).trim()] (lines 190-192) *)
Definition clean (text : list N) : list N := trim (replace_fences text).

(** The same on any value: a TypeError unless [content] is a string. *)
Definition clean_message (rt : runtime) (content : jsval) : thrown + list N :=
  match content with
  | JStr s => inr (clean s)
  | _ => inl (ThrowError (TypeError_message rt content (lit "replace")))
  end.

(** [response.data.choices[0].message.content] (line 188) *)
Definition message_content (rt : runtime) (data : jsval) : M jsval :=
  let! choices := lift (get rt data (lit "choices")) in
  let! choice := lift (get rt choices (lit "0")) in
  let! message := lift (get rt choice (lit "message")) in
  lift (get rt message (lit "content")).

Definition parse_failure : list N := lit "Failed to parse JSON response from Perplexity".
Definition no_api_key : list N := lit "Perplexity API key is not set".

(** [researchCompanyWithPerplexity] (lines 158-202) *)
Definition researchCompanyWithPerplexity (rt : runtime) (w : world)
    (company_name : jsval) : M jsval :=
  match env_PERPLEXITY_API_KEY w with
  | None | Some [] => throw (ThrowError no_api_key)
  | Some PERPLEXITY_API_KEY =>
      do! lift (to_string rt company_name) in
      do! emit (AxiosPost company_name PERPLEXITY_API_KEY) in
      let! data := lift (axios_post w company_name PERPLEXITY_API_KEY) in
      let! content := message_content rt data in
      let! assistantMessage := lift (clean_message rt content) in
      try_catch
        (lift (JSON_parse rt assistantMessage))
        (λ error,
           do! emit (ConsoleError (lit "Error parsing JSON response from Perplexity:") error) in
           throw (ThrowError parse_failure))
  end.

(** [markdownToHtml] (lines 204-207) *)
Definition markdownToHtml (w : world) (markdown : list N) : M (list N) :=
  do! emit (RemarkProcess markdown) in
  lift (remark_process w markdown).

Definition unknown_error : list N := lit "An unknown error occurred".

(** Lines 214-227 of [POST]: the values of [research_data] and
    [rawApiResponse] after the acquisition stage. *)
Definition acquisition (rt : runtime) (w : world)
    (company_name company_data : jsval) : M (jsval * jsval) :=
  let research_data := company_data in
  let rawApiResponse := JNull in
  if negb (truthy company_data) then
    try_catch
      (let! research_data := researchCompanyWithPerplexity rt w company_name in
       ret (research_data, rawApiResponse))
      (λ error,
         do! emit (ConsoleError (lit "Error fetching data from Perplexity:") error) in
         match error with
         | ThrowError message => ret (research_data, JStr message)
         | ThrowOther => ret (research_data, JStr unknown_error)
         end)
  else ret (research_data, rawApiResponse).

Definition headline_is_null : thrown := ThrowError (lit "Generated headline is null").

(** Lines 233-265: the value of [formatted_story]. *)
Definition generation (rt : runtime) (w : world)
    (company_name research_data : jsval) : M (list N) :=
  let formatted_story := [] in
  if truthy research_data then
    let! story := Bot.research_company rt w company_name research_data in
    if negb (truthy (headline story)) then throw headline_is_null
    else if negb (truthy (headline story)) then throw headline_is_null
    else Bot.format_story w story
  else ret formatted_story.

Definition json_ok (formatted_story htmlContent : list N)
    (isMarkdown : bool) (rawApiResponse : jsval) : response := {|
  status := 200;
  body :=
    <[lit "story" := JStr formatted_story]> (
    <[lit "htmlContent" := JStr htmlContent]> (
    <[lit "isMarkdown" := JBool isMarkdown]> (
    <[lit "rawApiResponse" := rawApiResponse]> ∅)));
|}.

(** Lines 267-281 *)
Definition rendering (w : world) (formatted_story : list N)
    (rawApiResponse : jsval) : M response :=
  let isMarkdown :=
    includes formatted_story (lit "##") || includes formatted_story (lit "*") in
  let! htmlContent :=
    (if isMarkdown then markdownToHtml w formatted_story else ret []) in
  ret (json_ok formatted_story htmlContent isMarkdown rawApiResponse).

(** The [try] block of [POST] (lines 211-281); [req] is what
    [await req.json()] gives. *)
Definition POST_try (rt : runtime) (w : world) (req : thrown + jsval) : M response :=
  let! json := lift req in
  let! company_name := lift (get rt json (lit "company_name")) in
  let! company_data := lift (get rt json (lit "company_data")) in
  let! acquired := acquisition rt w company_name company_data in
  let research_data := fst acquired in
  let rawApiResponse := snd acquired in
  if negb (truthy research_data) && negb (truthy rawApiResponse) then
    throw (ThrowError (lit "Failed to fetch company data"))
  else
    let! formatted_story := generation rt w company_name research_data in
    rendering w formatted_story rawApiResponse.

Definition json_error : response := {|
  status := 500;
  body := {[ lit "error" := JStr (lit "Failed to generate newsletter") ]};
|}.

(** [POST] (lines 209-289): the events of the request and the response. *)
Definition POST (rt : runtime) (w : world) (req : thrown + jsval)
    : list event * response :=
  match POST_try rt w req with
  | (t, inr r) => (t, r)
  | (t, inl error) =>
      (t ++ [ConsoleError (lit "Error generating newsletter:") error], json_error)
  end.

End Route.

(** ** The bot at the level of the object store

    [research_company] copies [this.story_template] with an object spread,
    which is shallow: the copy first shares the nested objects of the
    template.  To follow what a call may change, this second embedding of
    the constructor and of [research_company] keeps every object in a store
    and passes references, so that sharing is visible. *)

Module Heap.
Import JsString.

Inductive hval :=
| HUndefined
| HNull
| HBool (b : bool)
| HNum (x : spec_float)
| HStr (s : list N)
| HRef (l : positive).

(** An object of the store: its own properties; for an array these are
    the elements under their indices. *)
Record hobj := {
  is_array : bool;
  props : gmap (list N) hval;
}.

(** A computation changes the store and yields a value or what it
    threw. *)
Definition H (A : Type) : Type := gmap positive hobj → gmap positive hobj * (thrown + A).

Definition ret {A} (a : A) : H A := λ h, (h, inr a).
Definition lift {A} (r : thrown + A) : H A := λ h, (h, r).
Definition bind {A B} (m : H A) (f : A → H B) : H B :=
  λ h, match m h with
       | (h', inl e) => (h', inl e)
       | (h', inr a) => f a h'
       end.

Declare Scope heap_scope.
Notation "'let!' x ':=' m 'in' k" := (bind m (λ x, k))
  (at level 10, x name, m at level 100, k at level 200, only parsing)
  : heap_scope.
Notation "'do!' m 'in' k" := (bind m (λ _, k))
  (at level 10, m at level 100, k at level 200, only parsing)
  : heap_scope.
#[local] Open Scope heap_scope.

(** A new object, at a location the store does not use yet. *)
Definition alloc (o : hobj) : H positive :=
  λ h, let l := fresh (dom h) in (<[l := o]> h, inr l).

Definition truthy (v : hval) : bool :=
  match v with
  | HUndefined | HNull => false
  | HBool b => b
  | HNum (S754_zero _) | HNum S754_nan => false
  | HNum _ => true
  | HStr s => negb (bool_decide (s = []))
  | HRef _ => true
  end.

(** The own properties of a value in the store [h]. *)
Definition props_of (h : gmap positive hobj) (v : hval) : gmap (list N) hval :=
  match v with
  | HRef l => from_option props ∅ (h !! l)
  | HStr s => list_to_map (imap (λ i c, (decimal (N.of_nat i), HStr [c])) s)
  | _ => ∅
  end.

(** The properties that [{...v}] copies. *)
Definition own_props (v : hval) : H (gmap (list N) hval) :=
  λ h, (h, inr (props_of h v)).

(** [v.k] *)
Definition get (rt : runtime) (v : hval) (k : list N) : H hval :=
  match v with
  | HUndefined => lift (inl (ThrowError (TypeError_message rt JUndefined k)))
  | HNull => lift (inl (ThrowError (TypeError_message rt JNull k)))
  | _ => let! ps := own_props v in ret (default HUndefined (ps !! k))
  end.

(** [l.k = v] *)
Definition set (l : positive) (k : list N) (v : hval) : H () :=
  λ h, (alter (λ o, {| is_array := is_array o; props := <[k := v]> (props o) |}) l h,
        inr ()).

(** [[]] *)
Definition new_array : H hval :=
  let! l := alloc {| is_array := true; props := ∅ |} in ret (HRef l).

(** [{ k1: v1, ... }] *)
Definition new_object (ps : list (list N * hval)) : H hval :=
  let! l := alloc {| is_array := false; props := list_to_map ps |} in ret (HRef l).

(** [new NewsletterResearchBot()] (lines 31-53); the result is [this]. *)
Definition constructor : H positive :=
  let! this := alloc {| is_array := false; props := ∅ |} in
  let! key_players := new_array in
  let! recent_developments := new_array in
  let! context := new_object [
    (lit "market_size", HNull);
    (lit "key_players", key_players);
    (lit "recent_developments", recent_developments)] in
  let! metrics := new_object [
    (lit "revenue", HNull);
    (lit "funding", HNull);
    (lit "market_share", HNull);
    (lit "growth_rate", HNull)] in
  let! channels := new_array in
  let! partnerships := new_array in
  let! business_model := new_object [
    (lit "core_offering", HNull);
    (lit "unit_economics", HNull);
    (lit "channels", channels);
    (lit "partnerships", partnerships)] in
  let! analysis_points := new_array in
  let! story_template := new_object [
    (Bot.key_headline, HNull);
    (Bot.key_context, context);
    (Bot.key_metrics, metrics);
    (Bot.key_business_model, business_model);
    (Bot.key_analysis_points, analysis_points)] in
  do! set this (lit "story_template") story_template in
  ret this.

(** [{ ...a, ...b }] *)
Definition spread (a b : hval) : H positive :=
  let! pa := own_props a in
  let! pb := own_props b in
  alloc {| is_array := false; props := pb ∪ pa |}.

(** [research_company] (lines 78-88); [hook] is what
    [await this.generate_hook(company_name)] gives. *)
Definition research_company (rt : runtime) (hook : thrown + list N)
    (this : positive) (company_data : hval) : H hval :=
  let! story_template := get rt (HRef this) (lit "story_template") in
  let! story := spread HUndefined story_template in
  let! text := lift hook in
  do! set story Bot.key_headline (HStr text) in
  let! story_metrics := get rt (HRef story) Bot.key_metrics in
  let! cd_metrics := get rt company_data Bot.key_metrics in
  let! metrics := spread story_metrics cd_metrics in
  do! set story Bot.key_metrics (HRef metrics) in
  let! story_business_model := get rt (HRef story) Bot.key_business_model in
  let! cd_business_model := get rt company_data Bot.key_business_model in
  let! business_model := spread story_business_model cd_business_model in
  do! set story Bot.key_business_model (HRef business_model) in
  let! story_context := get rt (HRef story) Bot.key_context in
  let! cd_context := get rt company_data Bot.key_context in
  let! context := spread story_context cd_context in
  do! set story Bot.key_context (HRef context) in
  let! cd_analysis_points := get rt company_data Bot.key_analysis_points in
  let! analysis_points :=
    (if truthy cd_analysis_points then ret cd_analysis_points else new_array) in
  do! set story Bot.key_analysis_points analysis_points in
  ret (HRef story).

(** The value a reference stands for, read out of the store down to
    [depth] objects deep. *)
Fixpoint reify (depth : nat) (h : gmap positive hobj) (v : hval) : jsval :=
  match v with
  | HUndefined => JUndefined
  | HNull => JNull
  | HBool b => JBool b
  | HNum x => JNum x
  | HStr s => JStr s
  | HRef l =>
      match depth, h !! l with
      | S depth', Some o =>
          if is_array o then
            JArr (omap (λ i, reify depth' h <$> props o !! decimal (N.of_nat i))
                    (seq 0 (size (props o))))
          else JObj (reify depth' h <$> props o)
      | _, _ => JUndefined
      end
  end.

(** Every reference met within [depth] objects leads to an object. *)
Fixpoint closed (depth : nat) (h : gmap positive hobj) (v : hval) : Prop :=
  match v with
  | HRef l =>
      match depth with
      | S depth' =>
          ∃ o, h !! l = Some o ∧ map_Forall (λ _ v', closed depth' h v') (props o)
      | O => False
      end
  | _ => True
  end.

(** A plain object and an array with the given own properties. *)
Definition object (ps : list (list N * hval)) : hobj :=
  {| is_array := false; props := list_to_map ps |}.

Definition array (ps : list (list N * hval)) : hobj :=
  {| is_array := true; props := list_to_map ps |}.

(** [this] is a bot as the constructor leaves it: its template, the three
    nested objects of the template and their empty lists, each an object
    of the store. *)
Definition bot_shape (h : gmap positive hobj) (this : positive) : Prop :=
  ∃ t c m b a kp rd ch pa,
    h !! this = Some (object [(lit "story_template", HRef t)])
    ∧ h !! t = Some (object [
        (Bot.key_headline, HNull);
        (Bot.key_context, HRef c);
        (Bot.key_metrics, HRef m);
        (Bot.key_business_model, HRef b);
        (Bot.key_analysis_points, HRef a)])
    ∧ h !! c = Some (object [
        (lit "market_size", HNull);
        (lit "key_players", HRef kp);
        (lit "recent_developments", HRef rd)])
    ∧ h !! m = Some (object [
        (lit "revenue", HNull);
        (lit "funding", HNull);
        (lit "market_share", HNull);
        (lit "growth_rate", HNull)])
    ∧ h !! b = Some (object [
        (lit "core_offering", HNull);
        (lit "unit_economics", HNull);
        (lit "channels", HRef ch);
        (lit "partnerships", HRef pa)])
    ∧ h !! a = Some (array [])
    ∧ h !! kp = Some (array [])
    ∧ h !! rd = Some (array [])
    ∧ h !! ch = Some (array [])
    ∧ h !! pa = Some (array []).

(** The computation keeps every object of the store [h0] as it is, and
    what it returns satisfies [Q]. *)
Definition preserves {A} (h0 : gmap positive hobj) (m : H A) (Q : A → Prop) : Prop :=
  ∀ h, h0 ⊆ h →
       h0 ⊆ fst (m h) ∧ match snd (m h) with inr a => Q a | inl _ => True end.

(** Successive calls of [research_company] on one bot. *)
Fixpoint calls (rt : runtime) (this : positive)
    (cs : list ((thrown + list N) * hval)) (h : gmap positive hobj)
    : gmap positive hobj :=
  match cs with
  | [] => h
  | (hook, company_data) :: cs' =>
      calls rt this cs' (fst (research_company rt hook this company_data h))
  end.

(** The template of the value-level embedding, as one value. *)
Definition story_value (s : story) : jsval :=
  JObj (<[Bot.key_headline := headline s]> (
        <[Bot.key_context := JObj (context s)]> (
        <[Bot.key_metrics := JObj (metrics s)]> (
        <[Bot.key_business_model := JObj (business_model s)]> (
        <[Bot.key_analysis_points := analysis_points s]> ∅))))).

End Heap.

(** ** Vocabulary of the statements *)

Module Spec.
Import JsString.

(** Decimal digits only: no sign, no decimal point, no exponent. *)
Definition whole_number (s : list N) : Prop :=
  s ≠ [] ∧ Forall (λ c, is_digit c = true) s.

(** [n] is the integer nearest to [q], the larger one of two equally
    near. *)
Definition nearest_integer (q : Q) (n : Z) : Prop :=
  (inject_Z n - (1 # 2) <= q)%Q ∧ (q < inject_Z n + (1 # 2))%Q.

(** [n] renders the quotient [q] as [toFixed(0)] does: the digits of the
    nearest integer when [q] is finite and below 10^21, the default string
    form of the number from 10^21 on and for a quotient that is not
    finite. *)
Definition abbreviates (q : spec_float) (n : list N) : Prop :=
  match q with
  | S754_finite sg m e =>
      sg = false ∧
      if Number.at_least_1e21 m e then n = Number.toString q
      else n = decimal (Number.round_half_up m e) ∧ whole_number n
           ∧ nearest_integer (Number.to_Q m e) (Z.of_N (Number.round_half_up m e))
  | S754_zero _ => n = lit "0"
  | S754_infinity sg => sg = false ∧ n = lit "Infinity"
  | S754_nan => n = lit "NaN"
  end.

Definition all_spaces (s : list N) : Prop :=
  Forall (λ c, is_space c = true) s.

(** The event is a call of the research API. *)
Definition is_research_call (ev : event) : Prop :=
  match ev with AxiosPost _ _ => True | _ => False end.

(** The event is a call of the text-generation API. *)
Definition is_generation_call (ev : event) : Prop :=
  match ev with GenerateText _ => True | _ => False end.

(** The event is the call that [format_story] makes. *)
Definition is_format_story (ev : event) : Prop :=
  match ev with GenerateText (StoryPrompt _) => True | _ => False end.

(** The event is a call of the markdown transform. *)
Definition is_render_call (ev : event) : Prop :=
  match ev with RemarkProcess _ => True | _ => False end.

(** [v.k] for a value [v] that is neither [null] nor [undefined]. *)
Definition field (v : jsval) (k : list N) : jsval :=
  default JUndefined (Js.own_props v !! k).

(** [result] has every property that [supplied] has, with the value it
    has there, and the properties of [defaults] for the rest. *)
Definition overlays (defaults : gmap (list N) jsval) (supplied : jsval)
    (result : gmap (list N) jsval) : Prop :=
  ∀ k, result !! k =
       match Js.own_props supplied !! k with
       | Some v => Some v
       | None => defaults !! k
       end.

(** The story carries the profile [company_data]: its metrics, business
    model and context over the defaults of the template, and its list of
    analysis points, the empty list standing in for an absent one. *)
Definition carries_profile (company_data : jsval) (s : story) : Prop :=
  overlays (metrics Bot.story_template) (field company_data Bot.key_metrics) (metrics s)
  ∧ overlays (business_model Bot.story_template)
      (field company_data Bot.key_business_model) (business_model s)
  ∧ overlays (context Bot.story_template) (field company_data Bot.key_context) (context s)
  ∧ (∀ l, field company_data Bot.key_analysis_points = JArr l →
          analysis_points s = JArr l)
  ∧ (field company_data Bot.key_analysis_points = JUndefined →
     analysis_points s = JArr []).

(** What the [catch] of the acquisition stage records for [e]. *)
Definition diagnostic (e : thrown) : list N :=
  match e with
  | ThrowError message => message
  | ThrowOther => Route.unknown_error
  end.

(** The ways the acquisition stage fails, with what is thrown: no
    credential in the environment; the call of the research API rejected
    (network, authentication, a status outside 2xx), with whatever axios
    throws; a reply whose cleaned text is no JSON. *)
Inductive acquisition_failure (rt : runtime) (w : world) (company_name : jsval)
    : thrown → Prop :=
| missing_credential :
    env_PERPLEXITY_API_KEY w = None ∨ env_PERPLEXITY_API_KEY w = Some [] →
    acquisition_failure rt w company_name (ThrowError Route.no_api_key)
| transport_failure (key : list N) (e : thrown) :
    env_PERPLEXITY_API_KEY w = Some key → key ≠ [] →
    Js.has_string_form company_name = true →
    axios_post w company_name key = inl e →
    acquisition_failure rt w company_name e
| unparsable_reply (key : list N) (data : jsval) (text : list N) (error : thrown) :
    env_PERPLEXITY_API_KEY w = Some key → key ≠ [] →
    Js.has_string_form company_name = true →
    axios_post w company_name key = inr data →
    Route.message_content rt data = ret (JStr text) →
    JSON_parse rt (Route.clean text) = inl error →
    acquisition_failure rt w company_name (ThrowError Route.parse_failure).

End Spec.

(** ** Concrete inputs

    A runtime whose JSON parser knows three texts, and worlds built on it;
    they serve to evaluate the handler on explicit requests. *)

Module Sample.

Definition rt : runtime := {|
  JSON_parse := λ s,
    if bool_decide (s = lit "{}") then inr (JObj ∅)
    else if bool_decide (s = lit "null") then inr JNull
    else if bool_decide (s = lit "[]") then inr (JArr [])
    else inl (ThrowError (lit "Unexpected token"));
  toLocaleString := λ _ _, lit "1,234";
  TypeError_message := λ _ k, lit "Cannot read properties of undefined";
|}.

(** The reply of the research API carrying [text] as its message. *)
Definition completion (text : list N) : jsval :=
  JObj {[ lit "choices" :=
    JArr [JObj {[ lit "message" := JObj {[ lit "content" := JStr text ]} ]}] ]}.

(** No credential; a headline and a story that uses markup. *)
Definition offline : world := {|
  env_PERPLEXITY_API_KEY := None;
  axios_post := λ _ _, inl (ThrowError (lit "Network Error"));
  generateText := λ r,
    match r with
    | HookPrompt _ => inr (lit " Acme soars ")
    | StoryPrompt _ => inr (lit "## Context")
    end;
  remark_process := λ _, inr (lit "<h2>Context</h2>");
|}.

Definition with_key (w : world) : world := {|
  env_PERPLEXITY_API_KEY := Some (lit "pplx-key");
  axios_post := axios_post w;
  generateText := generateText w;
  remark_process := remark_process w;
|}.

Definition answering (text : list N) (w : world) : world := {|
  env_PERPLEXITY_API_KEY := Some (lit "pplx-key");
  axios_post := λ _ _, inr (completion text);
  generateText := generateText w;
  remark_process := remark_process w;
|}.

Definition with_headline (text : list N) (w : world) : world := {|
  env_PERPLEXITY_API_KEY := env_PERPLEXITY_API_KEY w;
  axios_post := axios_post w;
  generateText := λ r,
    match r with
    | HookPrompt _ => inr text
    | StoryPrompt _ => generateText w r
    end;
  remark_process := remark_process w;
|}.

(** A request body [{ company_name: "Acme", company_data: cd }]. *)
Definition request (cd : jsval) : thrown + jsval :=
  inr (JObj (<[lit "company_name" := JStr (lit "Acme")]> (
             <[lit "company_data" := cd]> ∅))).

(** [{ metrics: { revenue: 5000000000 }, analysis_points: ["a"] }] *)
Definition profile : jsval :=
  JObj (<[lit "metrics" := JObj {[ lit "revenue" := JNum (Number.of_Z 5000000000) ]}]> (
        <[lit "analysis_points" := JArr [JStr (lit "a")]]> ∅)).

End Sample.

(** ** Vocabulary for the paths through the handler *)

Module Pipeline.
Import JsString.

(** The last thing the handler logs when it answers 500. *)
Definition failure_log (e : thrown) : event :=
  ConsoleError (lit "Error generating newsletter:") e.

(** The place of a call of an outside service in the pipeline; [None] for
    an event that is only a log line. *)
Definition stage (ev : event) : option nat :=
  match ev with
  | AxiosPost _ _ => Some 0%nat
  | GenerateText (HookPrompt _) => Some 1%nat
  | GenerateText (StoryPrompt _) => Some 2%nat
  | RemarkProcess _ => Some 3%nat
  | ConsoleError _ _ | ConsoleLog _ _ => None
  end.

Definition stages (t : list event) : list nat := omap stage t.

(** No white space at either end. *)
Definition trimmed (s : list N) : Prop :=
  (∀ c r, s = c :: r → is_space c = false)
  ∧ (∀ r c, s = r ++ [c] → is_space c = false).

(** The ways a request goes through [POST]: the body cannot be read or
    taken apart; the acquisition leaves neither data nor a message; the
    generation throws; the rendering throws; the response is sent. *)
Inductive path (rt : runtime) (w : world) (req : thrown + jsval) : Prop :=
| path_rejected (e : thrown) :
    req = inl e ∨ (∃ json k, req = inr json ∧ Js.get rt json k = inl e) →
    Route.POST rt w req = ([failure_log e], Route.json_error) →
    path rt w req
| path_no_data (json company_name company_data research_data rawApiResponse : jsval)
    (ta : list event) :
    req = inr json →
    Js.get rt json (lit "company_name") = inr company_name →
    Js.get rt json (lit "company_data") = inr company_data →
    Route.acquisition rt w company_name company_data
    = (ta, inr (research_data, rawApiResponse)) →
    Js.truthy research_data = false → Js.truthy rawApiResponse = false →
    Route.POST rt w req
    = (ta ++ [failure_log (ThrowError (lit "Failed to fetch company data"))],
       Route.json_error) →
    path rt w req
| path_generation_failed
    (json company_name company_data research_data rawApiResponse : jsval)
    (ta tg : list event) (e : thrown) :
    req = inr json →
    Js.get rt json (lit "company_name") = inr company_name →
    Js.get rt json (lit "company_data") = inr company_data →
    Route.acquisition rt w company_name company_data
    = (ta, inr (research_data, rawApiResponse)) →
    Js.truthy research_data = true ∨ Js.truthy rawApiResponse = true →
    Route.generation rt w company_name research_data = (tg, inl e) →
    Route.POST rt w req = (ta ++ tg ++ [failure_log e], Route.json_error) →
    path rt w req
| path_render_failed
    (json company_name company_data research_data rawApiResponse : jsval)
    (ta tg tr : list event) (formatted_story : list N) (e : thrown) :
    req = inr json →
    Js.get rt json (lit "company_name") = inr company_name →
    Js.get rt json (lit "company_data") = inr company_data →
    Route.acquisition rt w company_name company_data
    = (ta, inr (research_data, rawApiResponse)) →
    Js.truthy research_data = true ∨ Js.truthy rawApiResponse = true →
    Route.generation rt w company_name research_data = (tg, inr formatted_story) →
    Route.rendering w formatted_story rawApiResponse = (tr, inl e) →
    Route.POST rt w req = (ta ++ tg ++ tr ++ [failure_log e], Route.json_error) →
    path rt w req
| path_answered
    (json company_name company_data research_data rawApiResponse : jsval)
    (ta tg tr : list event) (formatted_story : list N) (r : response) :
    req = inr json →
    Js.get rt json (lit "company_name") = inr company_name →
    Js.get rt json (lit "company_data") = inr company_data →
    Route.acquisition rt w company_name company_data
    = (ta, inr (research_data, rawApiResponse)) →
    Js.truthy research_data = true ∨ Js.truthy rawApiResponse = true →
    Route.generation rt w company_name research_data = (tg, inr formatted_story) →
    Route.rendering w formatted_story rawApiResponse = (tr, inr r) →
    Route.POST rt w req = (ta ++ tg ++ tr, r) →
    path rt w req.

(** What makes [POST] answer with the error response, with what is
    thrown: a body that cannot be read; a body that is [null], so that
    the names cannot be read from it; an acquisition that leaves neither
    data nor a message; a [company_name] that has no string form, next to
    a supplied profile; a call of the generation API that is rejected; a
    headline that is empty after trimming; a markdown transform that
    throws. *)
Inductive failure_cause (rt : runtime) (w : world) (req : thrown + jsval)
    : thrown → Prop :=
| body_unreadable (e : thrown) :
    req = inl e → failure_cause rt w req e
| body_not_object (json : jsval) (k : list N) (e : thrown) :
    req = inr json → Js.get rt json k = inl e → failure_cause rt w req e
| no_data (json company_name company_data research_data rawApiResponse : jsval)
    (ta : list event) :
    req = inr json →
    Js.get rt json (lit "company_name") = inr company_name →
    Js.get rt json (lit "company_data") = inr company_data →
    Route.acquisition rt w company_name company_data
    = (ta, inr (research_data, rawApiResponse)) →
    Js.truthy research_data = false → Js.truthy rawApiResponse = false →
    failure_cause rt w req (ThrowError (lit "Failed to fetch company data"))
| name_unprintable (json company_name company_data : jsval) :
    req = inr json →
    Js.get rt json (lit "company_name") = inr company_name →
    Js.get rt json (lit "company_data") = inr company_data →
    Js.truthy company_data = true →
    Js.has_string_form company_name = false →
    failure_cause rt w req
      (ThrowError (TypeError_message rt company_name (lit "toString")))
| generation_rejected (g : gen_request) (e : thrown) :
    GenerateText g ∈ fst (Route.POST rt w req) →
    generateText w g = inl e →
    failure_cause rt w req e
| headline_empty (company_name : jsval) (text : list N) :
    GenerateText (HookPrompt company_name) ∈ fst (Route.POST rt w req) →
    generateText w (HookPrompt company_name) = inr text →
    trim text = [] →
    failure_cause rt w req Route.headline_is_null
| render_rejected (markdown : list N) (e : thrown) :
    RemarkProcess markdown ∈ fst (Route.POST rt w req) →
    remark_process w markdown = inl e →
    failure_cause rt w req e.

End Pipeline.

(** ** Further concrete inputs *)

Module Cases.

(** The generation API rejects every call. *)
Definition generation_down (w : world) : world := {|
  env_PERPLEXITY_API_KEY := env_PERPLEXITY_API_KEY w;
  axios_post := axios_post w;
  generateText := λ _, inl (ThrowError (lit "Rate limit exceeded"));
  remark_process := remark_process w;
|}.

(** The markdown transform throws. *)
Definition renderer_down (w : world) : world := {|
  env_PERPLEXITY_API_KEY := env_PERPLEXITY_API_KEY w;
  axios_post := axios_post w;
  generateText := generateText w;
  remark_process := λ _, inl (ThrowError (lit "Cannot process file"));
|}.

(** The research API answers with [data]. *)
Definition replying (data : jsval) (w : world) : world := {|
  env_PERPLEXITY_API_KEY := Some (lit "pplx-key");
  axios_post := λ _ _, inr data;
  generateText := generateText w;
  remark_process := remark_process w;
|}.

(** The research API rejects the call with an error that has no
    message. *)
Definition silent_rejection : world := {|
  env_PERPLEXITY_API_KEY := Some (lit "pplx-key");
  axios_post := λ _ _, inl (ThrowError []);
  generateText := generateText Sample.offline;
  remark_process := remark_process Sample.offline;
|}.


(** [{ toString: null }], a value that a template literal cannot take. *)
Definition no_string_form : jsval := JObj {[ lit "toString" := JNull ]}.

(** A request body [{ company_name: cn }]. *)
Definition named (cn : jsval) : thrown + jsval :=
  inr (JObj {[ lit "company_name" := cn ]}).

(** The store after [new NewsletterResearchBot()] in an empty store,
    where the bot is object 1, with a profile
    [{ context: { key_players: ["Globex"] }, analysis_points: ["a"] }]
    as object 12, its context as object 14 and its lists as objects 13
    and 11. *)
Definition store : gmap positive Heap.hobj :=
  <[12%positive := Heap.object [(Bot.key_context, Heap.HRef 14);
                                (Bot.key_analysis_points, Heap.HRef 11)]]> (
  <[14%positive := Heap.object [(lit "key_players", Heap.HRef 13)]]> (
  <[13%positive := Heap.array [(lit "0", Heap.HStr (lit "Globex"))]]> (
  <[11%positive := Heap.array [(lit "0", Heap.HStr (lit "a"))]]> (
  fst (Heap.constructor ∅))))).

(** A number that is not above zero: NaN, a zero, or one with the sign
    bit set. *)
Definition not_positive (x : spec_float) : Prop :=
  match x with
  | S754_nan | S754_zero _ => True
  | S754_infinity sg | S754_finite sg _ _ => sg = true
  end.

End Cases.

(** ** Reading through references *)

Module Sharing.
Import Heap.

(** [v.k1.k2...] read in the store [h]: a value, a reference as it is,
    [undefined] where a property is missing. *)
Fixpoint path (h : gmap positive hobj) (v : hval) (ks : list (list N)) : hval :=
  match ks with
  | [] => v
  | k :: ks' => path h (default HUndefined (props_of h v !! k)) ks'
  end.

(** The lists of the template, by the names that lead to them from a
    story. *)
Definition template_lists : list (list (list N)) := [
  [Bot.key_context; lit "key_players"];
  [Bot.key_context; lit "recent_developments"];
  [Bot.key_business_model; lit "channels"];
  [Bot.key_business_model; lit "partnerships"]].

End Sharing.

(** * Properties *)

(** ** Strings *)

Section strings.
Import JsString.

Lemma starts_with_prefix (p s : list N) :
  starts_with p s = true ↔ ∃ r, s = p ++ r.
Proof.
  revert s. induction p as [|a p IH]; intros s; simpl.
  - split; [intros _; by exists s | done].
  - destruct s as [|b s].
    + split; [done | intros [r Hr]; discriminate].
    + rewrite andb_true_iff, N.eqb_eq, IH. split.
      * intros [-> [r ->]]. by exists r.
      * intros [r Hr]. injection Hr as -> ->. eauto.
Qed.

Lemma starts_with_app (p r : list N) : starts_with p (p ++ r) = true.
Proof. apply starts_with_prefix. by exists r. Qed.


Lemma skip_spaces_all (ws s : list N) :
  Spec.all_spaces ws → skip_spaces (ws ++ s) = skip_spaces s.
Proof.
  induction 1 as [|c ws Hc _ IH]; [done|]. simpl. by rewrite Hc.
Qed.

Lemma skip_spaces_app (b w : list N) :
  skip_spaces (b ++ w) =
    match skip_spaces b with
    | [] => skip_spaces w
    | r => r ++ w
    end.
Proof.
  induction b as [|c b IH]; simpl.
  - by destruct (skip_spaces w).
  - by destruct (is_space c).
Qed.

Lemma trim_padded (ws1 b ws2 : list N) :
  Spec.all_spaces ws1 → Spec.all_spaces ws2 → trim (ws1 ++ b ++ ws2) = trim b.
Proof.
  intros H1 H2. unfold trim. rewrite (skip_spaces_all ws1) by done.
  rewrite skip_spaces_app.
  assert (Hrev : Spec.all_spaces (reverse ws2)).
  { unfold Spec.all_spaces in *. by apply Forall_reverse. }
  destruct (skip_spaces b) as [|c r] eqn:Hb.
  - rewrite <- (app_nil_r ws2) at 1. rewrite (skip_spaces_all ws2) by done. done.
  - rewrite reverse_app, skip_spaces_all by done. done.
Qed.

Lemma decimal_go_digits (fuel : nat) (n : N) (acc : list N) :
  Forall (λ c, is_digit c = true) acc →
  Forall (λ c, is_digit c = true) (decimal_go fuel n acc).
Proof.
  assert (Hd : ∀ n, is_digit (48 + n mod 10)%N = true).
  { intros k. unfold is_digit.
    assert (k mod 10 < 10)%N as Hlt by (by apply N.mod_lt).
    revert Hlt. generalize (k mod 10)%N. intros d Hlt.
    apply andb_true_iff. split; apply N.leb_le; lia. }
  revert n acc. induction fuel as [|fuel IH]; intros n acc Hacc; simpl.
  - by constructor.
  - destruct (n / 10 =? 0)%N; [by constructor|]. apply IH. by constructor.
Qed.

Lemma decimal_go_nonempty (fuel : nat) (n : N) (acc : list N) :
  decimal_go fuel n acc ≠ [].
Proof.
  revert n acc. induction fuel as [|fuel IH]; intros n acc; simpl; [done|].
  destruct (n / 10 =? 0)%N; [done | apply IH].
Qed.

Lemma decimal_whole (n : N) : Spec.whole_number (decimal n).
Proof.
  split; [apply decimal_go_nonempty | apply decimal_go_digits; constructor].
Qed.

End strings.

(** ** Numbers and [format_metrics] *)

Section numbers.
Import JsString Number.

Lemma round_half_up_nearest (m : positive) (e : Z) :
  Spec.nearest_integer (to_Q m e) (Z.of_N (round_half_up m e)).
Proof.
  unfold Spec.nearest_integer, to_Q, round_half_up.
  destruct (Z.leb_spec 0 e) as [He|He].
  - assert (0 < 2 ^ e) by (by apply Z.pow_pos_nonneg).
    rewrite Z2N.id by lia.
    unfold Qle, Qlt, Qminus, Qplus, Qopp, inject_Z. simpl. lia.
  - set (d := 2 ^ (- e)).
    assert (Hd : 0 < d) by (apply Z.pow_pos_nonneg; lia).
    replace (2 ^ (1 - e)) with (2 * d)
      by (unfold d; replace (1 - e) with (Z.succ (- e)) by lia;
          rewrite Z.pow_succ_r by lia; done).
    set (t := 2 * Z.pos m + d).
    pose proof (Z.div_mod t (2 * d) ltac:(lia)) as Hdm.
    pose proof (Z.mod_pos_bound t (2 * d) ltac:(lia)) as Hr.
    assert (0 <= t / (2 * d)) by (apply Z.div_pos; unfold t; lia).
    rewrite Z2N.id by done.
    unfold Qle, Qlt, Qminus, Qplus, Qopp, inject_Z. simpl.
    rewrite Z2Pos.id by done.
    revert Hdm Hr. generalize (t `mod` (2 * d)). generalize (t / (2 * d)).
    unfold t. intros n r Hdm Hr. nia.
Qed.

Lemma at_least_1e21_spec (m : positive) (e : Z) :
  at_least_1e21 m e = true ↔ (inject_Z (10 ^ 21) <= to_Q m e)%Q.
Proof.
  unfold at_least_1e21, to_Q. destruct (Z.leb_spec 0 e) as [He|He].
  - rewrite Z.leb_le. unfold Qle, inject_Z. simpl. lia.
  - assert (Hd : 0 < 2 ^ (- e)) by (apply Z.pow_pos_nonneg; lia).
    rewrite Z.leb_le. unfold Qle, inject_Z. simpl Qnum. simpl Qden.
    rewrite Z2Pos.id by done. lia.
Qed.

Lemma ge_finite_positive (value : spec_float) (m : positive) (e : Z) :
  ge value (S754_finite false m e) = true →
  value = S754_infinity false ∨ ∃ m' e', value = S754_finite false m' e'.
Proof.
  unfold ge, SFleb. destruct value as [[]|[]| |[] m' e']; simpl; try discriminate.
  - by left.
  - right. eauto.
Qed.

Lemma binary_round_aux_positive (mx ex : Z) (lx : location) :
  match binary_round_aux prec emax false mx ex lx with
  | S754_zero sg | S754_infinity sg | S754_finite sg _ _ => sg = false
  | S754_nan => True
  end.
Proof.
  unfold binary_round_aux.
  destruct (shr_fexp prec emax mx ex lx) as [mrs' e'].
  destruct (shr_fexp prec emax _ e' loc_Exact) as [mrs'' e''].
  destruct (shr_m mrs''); [done | | done].
  by destruct (e'' <=? emax - prec).
Qed.

Lemma toFixed0_abbreviates (q : spec_float) :
  match q with
  | S754_zero _ | S754_nan => True
  | S754_infinity sg | S754_finite sg _ _ => sg = false
  end →
  Spec.abbreviates q (toFixed0 q).
Proof.
  destruct q as [sg|sg| |sg m e]; simpl; intros Hsg; try done.
  - by subst.
  - subst. split; [done|]. simpl.
    destruct (at_least_1e21 m e); [done|].
    split; [done|]. split; [apply decimal_whole | apply round_half_up_nearest].
Qed.

Lemma quotient_abbreviates (value : spec_float) (m : positive) (e : Z) :
  ge value (S754_finite false m e) = true →
  Spec.abbreviates (div value (S754_finite false m e))
    (toFixed0 (div value (S754_finite false m e))).
Proof.
  intros Hge. apply toFixed0_abbreviates.
  destruct (ge_finite_positive _ _ _ Hge) as [->|(m' & e' & ->)]; [done|].
  unfold div, SFdiv. change (xorb false false) with false.
  destruct (SFdiv_core_binary prec emax (Z.pos m') e' (Z.pos m) e) as [[mz ez] lz].
  pose proof (binary_round_aux_positive mz ez lz) as Hs.
  by destruct (binary_round_aux prec emax false mz ez lz).
Qed.

Lemma threshold_inr : of_Z 10000000 = S754_finite false 5368709120000000 (-29).
Proof. vm_compute. reflexivity. Qed.

Lemma threshold_usd : of_Z 1000000 = S754_finite false 8589934592000000 (-33).
Proof. vm_compute. reflexivity. Qed.

End numbers.

Section format_metrics.
Import JsString Number.

(** C4, as it holds: for the tag [inr] and a value of at least 10,000,000
    the helper returns the rupee sign, N and [ crores], for [usd] and at
    least 1,000,000 a dollar sign, N and [M], where N is the quotient as
    [toFixed(0)] writes it: the digits of the nearest integer, with no
    decimal point, as long as the quotient is below 10^21, and the default
    string form of the number beyond.  Below the threshold the helper
    returns the sign and the [en-IN] (resp. [en-US]) locale string of the
    value, for any other tag [value.toString()].  5,000,000,000 with [inr]
    gives 500 crores.  The helper is a total function. *)
Theorem format_metrics_cases (rt : runtime) (value : spec_float) (metric_type : list N) :
  (metric_type = lit "inr" →
     (ge value (of_Z 10000000) = true →
        ∃ n, Bot.format_metrics rt value metric_type = Bot.rupee ++ n ++ lit " crores"
             ∧ Spec.abbreviates (div value (of_Z 10000000)) n) ∧
     (ge value (of_Z 10000000) = false →
        Bot.format_metrics rt value metric_type
        = Bot.rupee ++ toLocaleString rt value (lit "en-IN"))) ∧
  (metric_type = lit "usd" →
     (ge value (of_Z 1000000) = true →
        ∃ n, Bot.format_metrics rt value metric_type = lit "$" ++ n ++ lit "M"
             ∧ Spec.abbreviates (div value (of_Z 1000000)) n) ∧
     (ge value (of_Z 1000000) = false →
        Bot.format_metrics rt value metric_type
        = lit "$" ++ toLocaleString rt value (lit "en-US"))) ∧
  (metric_type ≠ lit "inr" → metric_type ≠ lit "usd" →
     Bot.format_metrics rt value metric_type = toString value) ∧
  Bot.format_metrics rt (of_Z 5000000000) (lit "inr") = Bot.rupee ++ lit "500 crores".
Proof.
  unfold Bot.format_metrics.
  split; [|split; [|split]].
  - intros ->. rewrite bool_decide_eq_true_2 by done.
    split; intros Hge; rewrite Hge; [|done].
    eexists. split; [done|].
    rewrite threshold_inr in *. by apply quotient_abbreviates.
  - intros ->. rewrite bool_decide_eq_false_2 by done.
    rewrite bool_decide_eq_true_2 by done.
    split; intros Hge; rewrite Hge; [|done].
    eexists. split; [done|].
    rewrite threshold_usd in *. by apply quotient_abbreviates.
  - intros Hinr Husd. by rewrite !bool_decide_eq_false_2 by done.
  - vm_compute. reflexivity.
Qed.

Lemma format_metrics_cases_witness :
  ∃ n, Bot.format_metrics Sample.rt (of_Z 5000000000) (lit "inr")
       = Bot.rupee ++ n ++ lit " crores"
       ∧ Spec.abbreviates (div (of_Z 5000000000) (of_Z 10000000)) n.
Proof.
  apply (format_metrics_cases Sample.rt (of_Z 5000000000) (lit "inr")).
  - reflexivity.
  - vm_compute. reflexivity.
Defined.

(** C4 as stated fails for very large values: 1.5e28 with [inr] is above
    the threshold and the quotient is written with a decimal point and an
    exponent. *)
Lemma format_metrics_inr_1_5e28 :
  ge (of_Z (15 * 10 ^ 27)) (of_Z 10000000) = true
  ∧ Bot.format_metrics Sample.rt (of_Z (15 * 10 ^ 27)) (lit "inr")
    = Bot.rupee ++ lit "1.5e+21" ++ lit " crores"
  ∧ ¬ Spec.whole_number (lit "1.5e+21").
Proof.
  split; [vm_compute; reflexivity|]. split; [vm_compute; reflexivity|].
  intros [_ Hd]. apply Forall_cons in Hd as [_ Hd].
  apply Forall_cons in Hd as [Hd _]. vm_compute in Hd. discriminate.
Qed.

End format_metrics.

(** ** Code fences around the reply of the research API *)

Section fences.
Import JsString Js Route.

Lemma replace_rest_closing (s : list N) : replace_rest (s ++ fence) = s.
Proof.
  induction s as [|c s IH]; [done|].
  change (replace_rest ((c :: s) ++ fence))
    with (if match_close (c :: s ++ fence) then []
          else c :: replace_rest (s ++ fence)).
  unfold match_close. rewrite bool_decide_eq_false_2, IH; [done|].
  intros Heq. apply (f_equal length) in Heq.
  rewrite length_cons, length_app in Heq. vm_compute (length fence) in Heq. lia.
Qed.

Lemma replace_rest_unfenced (s : list N) :
  (∀ p, s ≠ p ++ fence) → replace_rest s = s.
Proof.
  induction s as [|c s IH]; intros Hs; [done|].
  change (replace_rest (c :: s))
    with (if match_close (c :: s) then [] else c :: replace_rest s).
  unfold match_close. rewrite bool_decide_eq_false_2.
  - rewrite IH; [done|]. intros p ->. by apply (Hs (c :: p)).
  - intros Heq. by apply (Hs []).
Qed.

Lemma skip_spaces_fence (s : list N) :
  skip_spaces (s ++ fence) = skip_spaces s ++ fence.
Proof. rewrite skip_spaces_app. by destruct (skip_spaces s). Qed.

Lemma skip_spaces_idem (s : list N) : skip_spaces (skip_spaces s) = skip_spaces s.
Proof.
  induction s as [|c s IH]; [done|]. simpl.
  destruct (is_space c) eqn:Hc; [done|]. simpl. by rewrite Hc.
Qed.

Lemma trim_skip_spaces (s : list N) : trim (skip_spaces s) = trim s.
Proof. unfold trim. by rewrite skip_spaces_idem. Qed.

Lemma match_open_json (r : list N) :
  match_open (lit "```json" ++ r) = Some (skip_spaces r).
Proof. reflexivity. Qed.

Lemma match_open_plain (r : list N) :
  starts_with (lit "json") r = false →
  match_open (lit "```" ++ r) = Some (skip_spaces r).
Proof.
  intros Hr. unfold match_open.
  change (starts_with fence (lit "```" ++ r)) with true.
  change (drop 3 (lit "```" ++ r)) with r. by rewrite Hr.
Qed.

(** The text between an opening and a closing fence is what remains. *)
Lemma clean_fenced (opening ws1 body ws2 : list N) :
  opening = lit "```json"
  ∨ opening = lit "```" ∧ starts_with (lit "json") (ws1 ++ body ++ ws2 ++ fence) = false →
  Spec.all_spaces ws1 → Spec.all_spaces ws2 →
  clean (opening ++ ws1 ++ body ++ ws2 ++ fence) = trim body.
Proof.
  intros Hop H1 H2. unfold clean, replace_fences.
  assert (match_open (opening ++ ws1 ++ body ++ ws2 ++ fence)
          = Some (skip_spaces ((ws1 ++ body ++ ws2) ++ fence))) as ->.
  { rewrite <- !app_assoc.
    destruct Hop as [->|[-> Hj]]; [apply match_open_json | by apply match_open_plain]. }
  by rewrite skip_spaces_fence, replace_rest_closing, trim_skip_spaces, trim_padded.
Qed.

(** A text without fences is only trimmed. *)
Lemma clean_unfenced (text : list N) :
  starts_with fence text = false → (∀ p, text ≠ p ++ fence) →
  clean text = trim text.
Proof.
  intros Hopen Hclose. unfold clean, replace_fences, match_open.
  by rewrite Hopen, replace_rest_unfenced.
Qed.

Lemma research_reply (rt : runtime) (w : world) (company_name : jsval)
    (key : list N) (data : jsval) (text : list N) :
  env_PERPLEXITY_API_KEY w = Some key → key ≠ [] →
  has_string_form company_name = true →
  axios_post w company_name key = inr data →
  message_content rt data = ret (JStr text) →
  researchCompanyWithPerplexity rt w company_name =
    match JSON_parse rt (clean text) with
    | inr researchData => ([AxiosPost company_name key], inr researchData)
    | inl error =>
        ([AxiosPost company_name key;
          ConsoleError (lit "Error parsing JSON response from Perplexity:") error],
         inl (ThrowError parse_failure))
    end.
Proof.
  intros Hkey Hne Hcn Hpost Hcontent. unfold researchCompanyWithPerplexity.
  rewrite Hkey. destruct key as [|k0 key]; [done|].
  unfold to_string. rewrite Hcn, Hpost. simpl. rewrite Hcontent. simpl.
  by destruct (JSON_parse rt (clean text)).
Qed.

(** C7: before the reply of the research API is parsed, an opening fence
    at its start, with or without the word json, and a closing fence at its
    end are removed and the text is trimmed; the JSON between the
    fences is what is parsed and returned, and a reply that is no JSON
    after cleaning makes the acquisition fail with the parse error, with no
    profile. *)
Theorem fenced_reply_parsed (rt : runtime) (w : world) (company_name : jsval)
    (key : list N) (data : jsval) (text : list N) :
  env_PERPLEXITY_API_KEY w = Some key → key ≠ [] →
  has_string_form company_name = true →
  axios_post w company_name key = inr data →
  message_content rt data = ret (JStr text) →
  (∀ opening ws1 body ws2 profile,
     text = opening ++ ws1 ++ body ++ ws2 ++ fence →
     opening = lit "```json"
     ∨ opening = lit "```" ∧ starts_with (lit "json") (ws1 ++ body ++ ws2 ++ fence) = false →
     Spec.all_spaces ws1 → Spec.all_spaces ws2 →
     JSON_parse rt (trim body) = inr profile →
     clean text = trim body
     ∧ researchCompanyWithPerplexity rt w company_name
       = ([AxiosPost company_name key], inr profile))
  ∧ (starts_with fence text = false → (∀ p, text ≠ p ++ fence) →
     clean text = trim text)
  ∧ (∀ profile, JSON_parse rt (clean text) = inr profile →
     researchCompanyWithPerplexity rt w company_name
     = ([AxiosPost company_name key], inr profile))
  ∧ (∀ error, JSON_parse rt (clean text) = inl error →
     researchCompanyWithPerplexity rt w company_name
     = ([AxiosPost company_name key;
         ConsoleError (lit "Error parsing JSON response from Perplexity:") error],
        inl (ThrowError parse_failure))).
Proof.
  intros Hkey Hne Hcn Hpost Hcontent.
  rewrite (research_reply rt w company_name key data text) by done.
  split; [|split; [|split]].
  - intros opening ws1 body ws2 profile -> Hop H1 H2 Hparse.
    rewrite clean_fenced by done. by rewrite Hparse.
  - apply clean_unfenced.
  - by intros profile ->.
  - by intros error ->.
Qed.

Lemma fenced_reply_parsed_witness :
  clean (lit "```json" ++ [10%N] ++ lit "{}" ++ [10%N] ++ fence) = trim (lit "{}")
  ∧ researchCompanyWithPerplexity Sample.rt
      (Sample.answering (lit "```json" ++ [10%N] ++ lit "{}" ++ [10%N] ++ fence) Sample.offline)
      (JStr (lit "Acme"))
    = ([AxiosPost (JStr (lit "Acme")) (lit "pplx-key")], inr (JObj ∅)).
Proof.
  refine (proj1 (fenced_reply_parsed Sample.rt
            (Sample.answering (lit "```json" ++ [10%N] ++ lit "{}" ++ [10%N] ++ fence)
               Sample.offline)
            (JStr (lit "Acme")) (lit "pplx-key")
            (Sample.completion (lit "```json" ++ [10%N] ++ lit "{}" ++ [10%N] ++ fence))
            (lit "```json" ++ [10%N] ++ lit "{}" ++ [10%N] ++ fence)
            _ _ _ _ _)
          (lit "```json") [10%N] (lit "{}") [10%N] (JObj ∅) _ _ _ _ _).
  - reflexivity.
  - discriminate.
  - reflexivity.
  - reflexivity.
  - vm_compute. reflexivity.
  - reflexivity.
  - left. reflexivity.
  - repeat constructor.
  - repeat constructor.
  - vm_compute. reflexivity.
Defined.

End fences.

(** ** The stages of the handler *)

(** Case analysis on every answer met, then the events one by one. *)
Ltac by_cases_on_answers :=
  repeat (case_match; simplify_eq/=; try done);
  repeat (apply Forall_cons; split; [simpl; tauto|]);
  try apply Forall_nil; try done.

Section stages.
Import JsString Js Route.

Lemma get_field (rt : runtime) (v : jsval) (k : list N) :
  truthy v = true → k ≠ lit "length" →
  get rt v k = inr (Spec.field v k).
Proof.
  intros Hv Hk. unfold get, Spec.field.
  destruct v; try done; by rewrite bool_decide_eq_false_2.
Qed.

Lemma get_object (rt : runtime) (o : gmap (list N) jsval) (k : list N) :
  get rt (JObj o) k = inr (default JUndefined (o !! k)).
Proof. done. Qed.

Lemma spread_overlays (defaults : gmap (list N) jsval) (supplied : jsval) :
  Spec.overlays defaults supplied (spread defaults supplied).
Proof.
  intros k. unfold spread. rewrite lookup_union.
  destruct (own_props supplied !! k), (defaults !! k); done.
Qed.

(** The acquisition stage with a supplied profile. *)
Lemma acquisition_supplied (rt : runtime) (w : world) (company_name company_data : jsval) :
  truthy company_data = true →
  acquisition rt w company_name company_data = ret (company_data, JNull).
Proof. intros Hcd. unfold acquisition. by rewrite Hcd. Qed.

(** The acquisition stage without one. *)
Lemma acquisition_researched (rt : runtime) (w : world) (company_name company_data : jsval) :
  truthy company_data = false →
  acquisition rt w company_name company_data =
    match researchCompanyWithPerplexity rt w company_name with
    | (t, inr research_data) => (t, inr (research_data, JNull))
    | (t, inl error) =>
        (t ++ [ConsoleError (lit "Error fetching data from Perplexity:") error],
         inr (company_data, JStr (Spec.diagnostic error)))
    end.
Proof.
  intros Hcd. unfold acquisition. rewrite Hcd. simpl.
  destruct (researchCompanyWithPerplexity rt w company_name) as [t [e|v]]; simpl.
  - by destruct e.
  - by rewrite app_nil_r.
Qed.

(** The research API is the only thing the acquisition stage calls. *)
Lemma research_events (rt : runtime) (w : world) (company_name : jsval) :
  Forall (λ ev, ¬ Spec.is_generation_call ev ∧ ¬ Spec.is_render_call ev)
    (fst (researchCompanyWithPerplexity rt w company_name)).
Proof.
  unfold researchCompanyWithPerplexity, message_content, to_string, clean_message,
    try_catch, bind, lift, emit, throw, ret.
  by_cases_on_answers.
Qed.

Lemma acquisition_events (rt : runtime) (w : world) (company_name company_data : jsval) :
  Forall (λ ev, ¬ Spec.is_generation_call ev ∧ ¬ Spec.is_render_call ev)
    (fst (acquisition rt w company_name company_data)).
Proof.
  destruct (truthy company_data) eqn:Hcd.
  - rewrite acquisition_supplied by done. by apply Forall_nil.
  - rewrite acquisition_researched by done.
    pose proof (research_events rt w company_name) as Hev.
    destruct (researchCompanyWithPerplexity rt w company_name) as [t [e|v]]; [|done].
    simpl in *. apply Forall_app. split; [done|].
    apply Forall_cons. split; [simpl; tauto | by apply Forall_nil].
Qed.

(** What [research_company] returns for a profile. *)
Lemma research_company_story (rt : runtime) (w : world)
    (company_name company_data : jsval) (t : list event) (s : story) :
  truthy company_data = true →
  Bot.research_company rt w company_name company_data = (t, inr s) →
  ∃ hook, Bot.generate_hook rt w company_name = (t, inr hook)
          ∧ headline s = JStr hook ∧ Spec.carries_profile company_data s.
Proof.
  intros Hcd. unfold Bot.research_company.
  destruct (Bot.generate_hook rt w company_name) as [th [e|hook]]; [done|].
  rewrite !get_field by done. simpl. rewrite app_nil_r.
  intros [= <- <-]. exists hook. split; [done|]. split; [done|].
  unfold Spec.carries_profile. simpl.
  repeat split; try apply spread_overlays.
  - by intros l ->.
  - by intros ->.
Qed.

Lemma generate_hook_events (rt : runtime) (w : world) (company_name : jsval) :
  Forall (λ ev, ¬ Spec.is_research_call ev ∧ ¬ Spec.is_format_story ev
                ∧ ¬ Spec.is_render_call ev)
    (fst (Bot.generate_hook rt w company_name)).
Proof.
  unfold Bot.generate_hook, to_string, bind, lift, emit, ret.
  by_cases_on_answers.
Qed.

End stages.

Section generation.
Import JsString Js Route.

Lemma research_company_events (rt : runtime) (w : world)
    (company_name company_data : jsval) :
  truthy company_data = true →
  fst (Bot.research_company rt w company_name company_data)
  = fst (Bot.generate_hook rt w company_name).
Proof.
  intros Hcd. unfold Bot.research_company.
  destruct (Bot.generate_hook rt w company_name) as [th [e|hook]]; [done|].
  rewrite !get_field by done. simpl. by rewrite app_nil_r.
Qed.

(** The events of the generation stage: no call of the research API or of
    the renderer, and a call of [format_story] only with a story that
    carries the profile. *)
Lemma generation_events (rt : runtime) (w : world) (company_name research_data : jsval) :
  Forall (λ ev, ¬ Spec.is_research_call ev ∧ ¬ Spec.is_render_call ev
                ∧ ∀ story_data, ev = GenerateText (StoryPrompt story_data) →
                                Spec.carries_profile research_data story_data)
    (fst (generation rt w company_name research_data)).
Proof.
  unfold generation. destruct (truthy research_data) eqn:Hrd; [|by apply Forall_nil].
  pose proof (research_company_events rt w company_name research_data Hrd) as Hev.
  pose proof (generate_hook_events rt w company_name) as Hhook.
  pose proof (research_company_story rt w company_name research_data) as Hstory.
  destruct (Bot.research_company rt w company_name research_data) as [t [e|s]].
  all: simpl in Hev; rewrite <- Hev in Hhook.
  all: assert (Forall (λ ev, ¬ Spec.is_research_call ev ∧ ¬ Spec.is_render_call ev
         ∧ ∀ story_data, ev = GenerateText (StoryPrompt story_data) →
                         Spec.carries_profile research_data story_data) t) as Ht
    by (eapply Forall_impl; [exact Hhook|];
        intros ev (? & Hfs & ?); split; [done|]; split; [done|];
        intros sd ->; by destruct Hfs).
  - done.
  - destruct (Hstory t s Hrd eq_refl) as (hook & _ & _ & Hcarries).
    unfold bind. destruct (truthy (headline s)); simpl;
      [|by rewrite app_nil_r].
    unfold Bot.format_story, bind, emit, lift, ret.
    destruct (generateText w (StoryPrompt s)); simpl.
    all: apply Forall_app; split; [done|].
    all: repeat (apply Forall_cons; split;
                 [split; [simpl; tauto|]; split; [simpl; tauto|];
                  intros sd Heq; by simplify_eq|]).
    all: by apply Forall_nil.
Qed.

Lemma rendering_events (w : world) (formatted_story : list N) (rawApiResponse : jsval) :
  Forall (λ ev, ¬ Spec.is_research_call ev ∧ ¬ Spec.is_generation_call ev)
    (fst (rendering w formatted_story rawApiResponse)).
Proof.
  unfold rendering, markdownToHtml, bind, emit, lift, ret.
  by_cases_on_answers.
Qed.

End generation.

(** ** The handler *)

Section handler.
Import JsString Js Route.

(** How a request whose body has been read goes through the stages. *)
Lemma POST_try_stages (rt : runtime) (w : world) (json company_name company_data : jsval) :
  get rt json (lit "company_name") = inr company_name →
  get rt json (lit "company_data") = inr company_data →
  POST_try rt w (inr json) =
    match acquisition rt w company_name company_data with
    | (ta, inl e) => (ta, inl e)
    | (ta, inr (research_data, rawApiResponse)) =>
        if negb (truthy research_data) && negb (truthy rawApiResponse) then
          (ta, inl (ThrowError (lit "Failed to fetch company data")))
        else
          match generation rt w company_name research_data with
          | (tg, inl e) => (ta ++ tg, inl e)
          | (tg, inr formatted_story) =>
              match rendering w formatted_story rawApiResponse with
              | (tr, r) => (ta ++ tg ++ tr, r)
              end
          end
    end.
Proof.
  intros Hname Hdata. unfold POST_try. simpl. rewrite Hname. simpl.
  rewrite Hdata. simpl.
  destruct (acquisition rt w company_name company_data) as [ta [e|[rd raw]]]; simpl;
    [done|].
  destruct (negb (truthy rd) && negb (truthy raw)); simpl; [by rewrite app_nil_r|].
  destruct (generation rt w company_name rd) as [tg [e|formatted_story]]; simpl;
    [done|].
  by destruct (rendering w formatted_story raw) as [tr r].
Qed.

(** A response that is not the error response went through all stages. *)
(** C1: when the request supplies a profile (a [company_data] that is not
    falsy), the acquisition stage returns that very value with no error
    recorded and without any event; the handler never calls the research
    API; the story that [research_company] builds, and any story handed to
    [format_story], has for each of metrics, business model and context
    the supplied properties with their supplied values and the defaults of
    the template for the others, and the supplied list of analysis points
    (the empty list when there is none); and with a headline that is not
    empty such a story does reach [format_story]. *)
Theorem supplied_profile_used (rt : runtime) (w : world)
    (json company_name company_data : jsval) :
  get rt json (lit "company_name") = inr company_name →
  get rt json (lit "company_data") = inr company_data →
  truthy company_data = true →
  acquisition rt w company_name company_data = ret (company_data, JNull)
  ∧ Forall (λ ev, ¬ Spec.is_research_call ev) (fst (POST rt w (inr json)))
  ∧ (∀ t s, Bot.research_company rt w company_name company_data = (t, inr s) →
            Spec.carries_profile company_data s)
  ∧ (∀ story_data, GenerateText (StoryPrompt story_data) ∈ fst (POST rt w (inr json)) →
                   Spec.carries_profile company_data story_data)
  ∧ (∀ th c hook, Bot.generate_hook rt w company_name = (th, inr (c :: hook)) →
       ∃ story_data, headline story_data = JStr (c :: hook)
                     ∧ GenerateText (StoryPrompt story_data) ∈ fst (POST rt w (inr json))).
Proof.
  intros Hname Hdata Hcd.
  pose proof (acquisition_supplied rt w company_name company_data Hcd) as Hacq.
  split; [done|].
  assert (∃ tail, fst (POST rt w (inr json))
                  = fst (generation rt w company_name company_data) ++ tail
                  ∧ Forall (λ ev, ¬ Spec.is_research_call ev
                                  ∧ ¬ Spec.is_generation_call ev) tail)
    as (tail & Hpost & Htail).
  { unfold POST. rewrite (POST_try_stages rt w json company_name company_data) by done.
    rewrite Hacq. simpl. rewrite Hcd. simpl.
    destruct (generation rt w company_name company_data) as [tg [e|fs]].
    - eexists. split; [done|].
      apply Forall_cons. split; [simpl; tauto | by apply Forall_nil].
    - pose proof (rendering_events w fs JNull) as Hr.
      destruct (rendering w fs JNull) as [tr [e|r]]; simpl.
      + exists (tr ++ [ConsoleError (lit "Error generating newsletter:") e]).
        split; [by rewrite app_assoc|]. apply Forall_app. split; [done|].
        apply Forall_cons. split; [simpl; tauto | by apply Forall_nil].
      + by exists tr. }
  pose proof (generation_events rt w company_name company_data) as Hg.
  split; [|split; [|split]].
  - rewrite Hpost. apply Forall_app. split.
    + eapply Forall_impl; [exact Hg|]. simpl. tauto.
    + eapply Forall_impl; [exact Htail|]. simpl. tauto.
  - intros t s Hs.
    by destruct (research_company_story rt w company_name company_data t s Hcd Hs)
      as (hook & _ & _ & Hc).
  - intros story_data. rewrite Hpost, elem_of_app. intros [Hin|Hin].
    + rewrite Forall_forall in Hg. by apply (Hg _ Hin).
    + rewrite Forall_forall in Htail. destruct (Htail _ Hin) as [_ Hn]. by destruct Hn.
  - intros th c hook Hhook. rewrite Hpost.
    unfold generation. rewrite Hcd. unfold Bot.research_company. rewrite Hhook.
    rewrite !get_field by done. simpl.
    unfold Bot.format_story, bind, emit, lift, ret.
    match goal with
    | |- context [generateText w (StoryPrompt ?s)] =>
        exists s; destruct (generateText w (StoryPrompt s))
    end; simpl.
    all: split; [done|].
    all: rewrite !elem_of_app, elem_of_cons; tauto.
Qed.

Lemma supplied_profile_used_witness :
  acquisition Sample.rt Sample.offline (JStr (lit "Acme")) Sample.profile
  = ret (Sample.profile, JNull)
  ∧ Forall (λ ev, ¬ Spec.is_research_call ev)
      (fst (POST Sample.rt Sample.offline (Sample.request Sample.profile))).
Proof.
  refine (let H := supplied_profile_used Sample.rt Sample.offline
                     (JObj (<[lit "company_name" := JStr (lit "Acme")]> (
                            <[lit "company_data" := Sample.profile]> ∅)))
                     (JStr (lit "Acme")) Sample.profile _ _ _ in
          conj (proj1 H) (proj1 (proj2 H))).
  - vm_compute. reflexivity.
  - vm_compute. reflexivity.
  - reflexivity.
Defined.

(** C2: when the acquisition stage yielded a profile and the headline step
    returns the empty string (the generated text trimmed), the handler
    answers with the 500 error response and [format_story] is not
    called. *)
Theorem empty_headline_stops (rt : runtime) (w : world)
    (json company_name company_data research_data rawApiResponse : jsval)
    (ta th : list event) :
  get rt json (lit "company_name") = inr company_name →
  get rt json (lit "company_data") = inr company_data →
  acquisition rt w company_name company_data = (ta, inr (research_data, rawApiResponse)) →
  truthy research_data = true →
  Bot.generate_hook rt w company_name = (th, inr []) →
  POST rt w (inr json)
  = (ta ++ th ++ [ConsoleError (lit "Error generating newsletter:") headline_is_null],
     json_error)
  ∧ status (snd (POST rt w (inr json))) = 500
  ∧ Forall (λ ev, ¬ Spec.is_format_story ev) (fst (POST rt w (inr json))).
Proof.
  intros Hname Hdata Hacq Hrd Hhook.
  assert (Hpost : POST rt w (inr json)
    = (ta ++ th ++ [ConsoleError (lit "Error generating newsletter:") headline_is_null],
       json_error)).
  { unfold POST. rewrite (POST_try_stages rt w json company_name company_data) by done.
    rewrite Hacq, Hrd. simpl. unfold generation. rewrite Hrd.
    unfold Bot.research_company. rewrite Hhook.
    rewrite !get_field by done. simpl. by rewrite !app_nil_r, app_assoc. }
  rewrite Hpost. split; [done|]. split; [done|]. simpl.
  pose proof (acquisition_events rt w company_name company_data) as Ha.
  pose proof (generate_hook_events rt w company_name) as Hh.
  rewrite Hacq in Ha. rewrite Hhook in Hh. simpl in Ha, Hh.
  apply Forall_app. split; [|apply Forall_app; split].
  - eapply Forall_impl; [exact Ha|]. intros ev [Hgen _] Hfs. apply Hgen.
    by destruct ev as [| [] | | |].
  - eapply Forall_impl; [exact Hh|]. simpl. tauto.
  - apply Forall_cons. split; [simpl; tauto | by apply Forall_nil].
Qed.

Lemma empty_headline_stops_witness :
  POST Sample.rt (Sample.with_headline (lit "  ") Sample.offline)
    (Sample.request Sample.profile)
  = ([] ++ [GenerateText (HookPrompt (JStr (lit "Acme")))]
        ++ [ConsoleError (lit "Error generating newsletter:") headline_is_null],
     json_error)
  ∧ status (snd (POST Sample.rt (Sample.with_headline (lit "  ") Sample.offline)
                   (Sample.request Sample.profile))) = 500
  ∧ Forall (λ ev, ¬ Spec.is_format_story ev)
      (fst (POST Sample.rt (Sample.with_headline (lit "  ") Sample.offline)
              (Sample.request Sample.profile))).
Proof.
  apply (empty_headline_stops Sample.rt (Sample.with_headline (lit "  ") Sample.offline)
           (JObj (<[lit "company_name" := JStr (lit "Acme")]> (
                  <[lit "company_data" := Sample.profile]> ∅)))
           (JStr (lit "Acme")) Sample.profile Sample.profile JNull).
  - vm_compute. reflexivity.
  - vm_compute. reflexivity.
  - reflexivity.
  - reflexivity.
  - vm_compute. reflexivity.
Defined.

(** C6: when the acquisition stage leaves neither a profile nor a recorded
    error message (both values falsy), the handler answers with the 500
    error response. *)
Theorem no_data_no_error_fails (rt : runtime) (w : world)
    (json company_name company_data research_data rawApiResponse : jsval)
    (ta : list event) :
  get rt json (lit "company_name") = inr company_name →
  get rt json (lit "company_data") = inr company_data →
  acquisition rt w company_name company_data = (ta, inr (research_data, rawApiResponse)) →
  truthy research_data = false →
  truthy rawApiResponse = false →
  POST rt w (inr json)
  = (ta ++ [ConsoleError (lit "Error generating newsletter:")
              (ThrowError (lit "Failed to fetch company data"))],
     json_error)
  ∧ status (snd (POST rt w (inr json))) = 500.
Proof.
  intros Hname Hdata Hacq Hrd Hraw.
  assert (Hpost : POST rt w (inr json)
    = (ta ++ [ConsoleError (lit "Error generating newsletter:")
                (ThrowError (lit "Failed to fetch company data"))],
       json_error)).
  { unfold POST. rewrite (POST_try_stages rt w json company_name company_data) by done.
    by rewrite Hacq, Hrd, Hraw. }
  by rewrite Hpost.
Qed.

Lemma no_data_no_error_fails_witness :
  POST Sample.rt (Sample.answering (lit "null") Sample.offline) (Sample.request JNull)
  = ([AxiosPost (JStr (lit "Acme")) (lit "pplx-key")]
       ++ [ConsoleError (lit "Error generating newsletter:")
             (ThrowError (lit "Failed to fetch company data"))],
     json_error)
  ∧ status (snd (POST Sample.rt (Sample.answering (lit "null") Sample.offline)
                   (Sample.request JNull))) = 500.
Proof.
  apply (no_data_no_error_fails Sample.rt (Sample.answering (lit "null") Sample.offline)
           (JObj (<[lit "company_name" := JStr (lit "Acme")]> (
                  <[lit "company_data" := JNull]> ∅)))
           (JStr (lit "Acme")) JNull JNull JNull).
  - vm_compute. reflexivity.
  - vm_compute. reflexivity.
  - vm_compute. reflexivity.
  - reflexivity.
  - reflexivity.
Defined.

(** C8: whatever is thrown inside the [try] block of the handler, the
    response has status 500 and its body is exactly the object with the one
    property [error], whose value is the fixed text; nothing of what was
    thrown is in it (it is only logged). *)
Theorem any_failure_is_generic_500 (rt : runtime) (w : world) (req : thrown + jsval)
    (t : list event) (e : thrown) :
  POST_try rt w req = (t, inl e) →
  POST rt w req = (t ++ [ConsoleError (lit "Error generating newsletter:") e], json_error)
  ∧ status (snd (POST rt w req)) = 500
  ∧ body (snd (POST rt w req)) = {[ lit "error" := JStr (lit "Failed to generate newsletter") ]}.
Proof. intros Htry. unfold POST. by rewrite Htry. Qed.

Lemma any_failure_is_generic_500_witness :
  POST Sample.rt Sample.offline (inl (ThrowError (lit "Unexpected end of JSON input")))
  = ([] ++ [ConsoleError (lit "Error generating newsletter:")
              (ThrowError (lit "Unexpected end of JSON input"))],
     json_error)
  ∧ status (snd (POST Sample.rt Sample.offline
                   (inl (ThrowError (lit "Unexpected end of JSON input"))))) = 500
  ∧ body (snd (POST Sample.rt Sample.offline
                 (inl (ThrowError (lit "Unexpected end of JSON input")))))
    = {[ lit "error" := JStr (lit "Failed to generate newsletter") ]}.
Proof.
  apply (any_failure_is_generic_500 Sample.rt Sample.offline
           (inl (ThrowError (lit "Unexpected end of JSON input"))) []).
  reflexivity.
Defined.

Lemma research_fails (rt : runtime) (w : world) (company_name : jsval) (e : thrown) :
  Spec.acquisition_failure rt w company_name e →
  (Spec.diagnostic e = [] →
   ∃ key, env_PERPLEXITY_API_KEY w = Some key ∧ axios_post w company_name key = inl e)
  ∧ ∃ ta, researchCompanyWithPerplexity rt w company_name = (ta, inl e).
Proof.
  intros [Hkey | key e' Hkey Hne Hcn Hpost | key data text error Hkey Hne Hcn Hpost Hcontent Hparse].
  - split; [done|]. exists []. unfold researchCompanyWithPerplexity.
    by destruct Hkey as [-> | ->].
  - split; [by eauto|]. exists [AxiosPost company_name key].
    unfold researchCompanyWithPerplexity. rewrite Hkey.
    destruct key as [|k0 key]; [done|].
    unfold to_string. by rewrite Hcn, Hpost.
  - split; [done|]. eexists.
    rewrite (research_reply rt w company_name key data text) by done.
    by rewrite Hparse.
Qed.

(** C3, as it holds: when the request supplies no profile and the
    acquisition stage fails (no credential, the call of the research API
    rejected, or a reply that is no JSON once the fences are removed), the
    handler logs what was thrown, records its message and makes no call of
    the generation API or of the renderer.  When the message is not
    empty, as it is for a missing credential and for a reply that is no
    JSON, it answers 200 with an empty story, an empty [htmlContent],
    [isMarkdown] false and the message as [rawApiResponse].  When the
    message is empty, which only an error thrown by the call of the
    research API can bring about, neither data nor a message is left and
    the handler answers with the error response. *)
Theorem acquisition_failure_degrades (rt : runtime) (w : world)
    (json company_name company_data : jsval) (e : thrown) :
  get rt json (lit "company_name") = inr company_name →
  get rt json (lit "company_data") = inr company_data →
  truthy company_data = false →
  Spec.acquisition_failure rt w company_name e →
  ∃ ta,
    researchCompanyWithPerplexity rt w company_name = (ta, inl e)
    ∧ acquisition rt w company_name company_data
      = (ta ++ [ConsoleError (lit "Error fetching data from Perplexity:") e],
         inr (company_data, JStr (Spec.diagnostic e)))
    ∧ Forall (λ ev, ¬ Spec.is_generation_call ev ∧ ¬ Spec.is_render_call ev)
        (fst (POST rt w (inr json)))
    ∧ (Spec.diagnostic e ≠ [] →
       POST rt w (inr json)
       = (ta ++ [ConsoleError (lit "Error fetching data from Perplexity:") e],
          json_ok [] [] false (JStr (Spec.diagnostic e)))
       ∧ status (snd (POST rt w (inr json))) = 200)
    ∧ (Spec.diagnostic e = [] →
       (∃ key, env_PERPLEXITY_API_KEY w = Some key
               ∧ axios_post w company_name key = inl e)
       ∧ POST rt w (inr json)
         = (ta ++ [ConsoleError (lit "Error fetching data from Perplexity:") e;
                   Pipeline.failure_log (ThrowError (lit "Failed to fetch company data"))],
            json_error)
       ∧ status (snd (POST rt w (inr json))) = 500).
Proof.
  intros Hname Hdata Hcd Hfail.
  destruct (research_fails rt w company_name e Hfail) as (Hempty & ta & Hres).
  exists ta. split; [done|].
  assert (Hacq : acquisition rt w company_name company_data
    = (ta ++ [ConsoleError (lit "Error fetching data from Perplexity:") e],
       inr (company_data, JStr (Spec.diagnostic e))))
    by (by rewrite acquisition_researched, Hres).
  split; [done|].
  pose proof (acquisition_events rt w company_name company_data) as Ha.
  rewrite Hacq in Ha. simpl in Ha.
  assert (Hpost : POST rt w (inr json)
    = if bool_decide (Spec.diagnostic e = []) then
        (ta ++ [ConsoleError (lit "Error fetching data from Perplexity:") e;
                Pipeline.failure_log (ThrowError (lit "Failed to fetch company data"))],
         json_error)
      else
        (ta ++ [ConsoleError (lit "Error fetching data from Perplexity:") e],
         json_ok [] [] false (JStr (Spec.diagnostic e)))).
  { unfold POST. rewrite (POST_try_stages rt w json company_name company_data) by done.
    rewrite Hacq, Hcd. simpl. case_bool_decide; simpl.
    - by rewrite <- app_assoc.
    - unfold generation. rewrite Hcd. simpl. by rewrite !app_nil_r. }
  rewrite Hpost. split; [|split].
  - case_bool_decide; simpl; [|done].
    apply Forall_app in Ha as [Hta _]. apply Forall_app. split; [done|].
    repeat (apply Forall_cons; split; [simpl; tauto|]). by apply Forall_nil.
  - intros Hmsg. by rewrite bool_decide_eq_false_2.
  - intros Hmsg. rewrite bool_decide_eq_true_2 by done. by split; [apply Hempty|].
Qed.

Lemma acquisition_failure_degrades_witness :
  ∃ ta,
    researchCompanyWithPerplexity Sample.rt (Sample.with_key Sample.offline)
      (JStr (lit "Acme")) = (ta, inl (ThrowError (lit "Network Error")))
    ∧ POST Sample.rt (Sample.with_key Sample.offline)
        (inr (JObj {[ lit "company_name" := JStr (lit "Acme") ]}))
      = (ta ++ [ConsoleError (lit "Error fetching data from Perplexity:")
                  (ThrowError (lit "Network Error"))],
         json_ok [] [] false (JStr (lit "Network Error")))
    ∧ status (snd (POST Sample.rt (Sample.with_key Sample.offline)
                     (inr (JObj {[ lit "company_name" := JStr (lit "Acme") ]})))) = 200.
Proof.
  destruct (acquisition_failure_degrades Sample.rt (Sample.with_key Sample.offline)
              (JObj {[ lit "company_name" := JStr (lit "Acme") ]})
              (JStr (lit "Acme")) JUndefined (ThrowError (lit "Network Error")))
    as (ta & Hres & _ & _ & Hmessage & _).
  - vm_compute. reflexivity.
  - vm_compute. reflexivity.
  - reflexivity.
  - apply (Spec.transport_failure _ _ _ (lit "pplx-key")).
    + reflexivity.
    + discriminate.
    + reflexivity.
    + reflexivity.
  - exists ta. split; [exact Hres|]. apply Hmessage. discriminate.
Defined.

(** C3 as stated fails when the research API rejects the call with an
    error whose message is the empty string: the acquisition stage has
    failed and no profile was supplied, yet [rawApiResponse] is the empty
    string, the guard of line 229 throws and the handler answers 500. *)
Lemma acquisition_failure_empty_message :
  Spec.acquisition_failure Sample.rt Cases.silent_rejection (JStr (lit "Acme"))
    (ThrowError [])
  ∧ get Sample.rt (JObj {[ lit "company_name" := JStr (lit "Acme") ]}) (lit "company_data")
    = inr JUndefined
  ∧ POST Sample.rt Cases.silent_rejection (Cases.named (JStr (lit "Acme")))
    = ([AxiosPost (JStr (lit "Acme")) (lit "pplx-key");
        ConsoleError (lit "Error fetching data from Perplexity:") (ThrowError []);
        Pipeline.failure_log (ThrowError (lit "Failed to fetch company data"))],
       json_error)
  ∧ status (snd (POST Sample.rt Cases.silent_rejection (Cases.named (JStr (lit "Acme")))))
    = 500.
Proof.
  split; [|split; [|split]].
  - by apply (Spec.transport_failure _ _ _ (lit "pplx-key")).
  - vm_compute. reflexivity.
  - vm_compute. reflexivity.
  - vm_compute. reflexivity.
Qed.

Lemma rendering_returns (w : world) (formatted_story : list N) (rawApiResponse : jsval)
    (tr : list event) (r : response) :
  rendering w formatted_story rawApiResponse = (tr, inr r) →
  ∃ htmlContent isMarkdown,
    r = json_ok formatted_story htmlContent isMarkdown rawApiResponse
    ∧ isMarkdown = includes formatted_story (lit "##") || includes formatted_story (lit "*")
    ∧ (isMarkdown = true →
       remark_process w formatted_story = inr htmlContent
       ∧ tr = [RemarkProcess formatted_story])
    ∧ (isMarkdown = false → htmlContent = [] ∧ tr = []).
Proof.
  unfold rendering, markdownToHtml, bind, emit, lift, ret.
  destruct (includes formatted_story (lit "##") || includes formatted_story (lit "*")).
  - destruct (remark_process w formatted_story) as [e|html] eqn:Hhtml; [done|].
    intros [= <- <-]. by exists html, true.
  - intros [= <- <-]. by exists [], false.
Qed.

End handler.

(** ** The template in the object store *)

Section store.
Import JsString Heap.
#[local] Open Scope heap_scope.

Lemma preserves_ret {A} (h0 : gmap positive hobj) (a : A) (Q : A → Prop) :
  Q a → preserves h0 (Heap.ret a) Q.
Proof. by intros HQ h Hh. Qed.

Lemma preserves_lift {A} (h0 : gmap positive hobj) (r : thrown + A) :
  preserves h0 (Heap.lift r) (λ _, True).
Proof. intros h Hh. split; [done|]. simpl. by destruct r. Qed.

Lemma preserves_bind {A B} (h0 : gmap positive hobj) (m : H A) (f : A → H B)
    (Q : A → Prop) (R : B → Prop) :
  preserves h0 m Q → (∀ a, Q a → preserves h0 (f a) R) →
  preserves h0 (Heap.bind m f) R.
Proof.
  intros Hm Hf h Hh. unfold Heap.bind.
  destruct (Hm h Hh) as [Hsub HQ].
  destruct (m h) as [h' [e|a]]; simpl in *; [done|].
  by apply Hf.
Qed.

Lemma preserves_weaken {A} (h0 : gmap positive hobj) (m : H A) (Q R : A → Prop) :
  preserves h0 m Q → (∀ a, Q a → R a) → preserves h0 m R.
Proof.
  intros Hm HQR h Hh. destruct (Hm h Hh) as [Hsub HQ]. split; [done|].
  destruct (snd (m h)); [done | by apply HQR].
Qed.

(** A new object lies outside the store the computation started from. *)
Lemma preserves_alloc (h0 : gmap positive hobj) (o : hobj) :
  preserves h0 (alloc o) (λ l, h0 !! l = None).
Proof.
  intros h Hh. unfold alloc. simpl.
  assert (Hfresh : h !! fresh (dom h) = None)
    by (apply not_elem_of_dom, is_fresh).
  split.
  - etrans; [exact Hh|]. by apply insert_subseteq.
  - destruct (h0 !! fresh (dom h)) as [o'|] eqn:Hl; [|done].
    apply (lookup_weaken _ h) in Hl; [congruence | done].
Qed.

Lemma preserves_own_props (h0 : gmap positive hobj) (v : hval) :
  preserves h0 (own_props v) (λ _, True).
Proof. by intros h Hh. Qed.

Lemma preserves_get (h0 : gmap positive hobj) (rt : runtime) (v : hval) (k : list N) :
  preserves h0 (get rt v k) (λ _, True).
Proof. intros h Hh. by destruct v. Qed.

(** Writing a property of an object outside [h0] leaves [h0] alone. *)
Lemma preserves_set (h0 : gmap positive hobj) (l : positive) (k : list N) (v : hval) :
  h0 !! l = None → preserves h0 (set l k v) (λ _, True).
Proof.
  intros Hl h Hh. split; [|done]. simpl.
  apply map_subseteq_spec. intros l' o Hl'.
  rewrite lookup_alter_ne by congruence.
  by apply (lookup_weaken h0).
Qed.

Lemma preserves_new_array (h0 : gmap positive hobj) :
  preserves h0 new_array (λ _, True).
Proof.
  eapply preserves_bind; [apply preserves_alloc|].
  intros l _. by apply preserves_ret.
Qed.

Lemma preserves_spread (h0 : gmap positive hobj) (a b : hval) :
  preserves h0 (spread a b) (λ l, h0 !! l = None).
Proof.
  eapply preserves_bind; [apply preserves_own_props|]. intros pa _.
  eapply preserves_bind; [apply preserves_own_props|]. intros pb _.
  apply preserves_alloc.
Qed.

(** The frame of [research_company]: it writes only to the copy it has
    made, so every object of the store before the call is the same after
    it. *)
Lemma research_company_frame (rt : runtime) (hook : thrown + list N)
    (this : positive) (company_data : hval) (h : gmap positive hobj) :
  h ⊆ fst (research_company rt hook this company_data h).
Proof.
  cut (preserves h (research_company rt hook this company_data) (λ _, True)).
  { intros Hp. by apply Hp. }
  unfold research_company.
  eapply preserves_bind; [apply preserves_get|]. intros story_template _.
  eapply preserves_bind; [apply preserves_spread|]. intros story Hstory.
  eapply preserves_bind; [apply preserves_lift|]. intros text _.
  eapply preserves_bind; [by apply preserves_set|]. intros _ _.
  eapply preserves_bind; [apply preserves_get|]. intros story_metrics _.
  eapply preserves_bind; [apply preserves_get|]. intros cd_metrics _.
  eapply preserves_bind; [apply preserves_spread|]. intros metrics _.
  eapply preserves_bind; [by apply preserves_set|]. intros _ _.
  eapply preserves_bind; [apply preserves_get|]. intros story_business_model _.
  eapply preserves_bind; [apply preserves_get|]. intros cd_business_model _.
  eapply preserves_bind; [apply preserves_spread|]. intros business_model _.
  eapply preserves_bind; [by apply preserves_set|]. intros _ _.
  eapply preserves_bind; [apply preserves_get|]. intros story_context _.
  eapply preserves_bind; [apply preserves_get|]. intros cd_context _.
  eapply preserves_bind; [apply preserves_spread|]. intros context _.
  eapply preserves_bind; [by apply preserves_set|]. intros _ _.
  eapply preserves_bind; [apply preserves_get|]. intros cd_analysis_points _.
  eapply preserves_bind with (Q := λ _, True).
  { destruct (truthy cd_analysis_points);
      [by apply preserves_ret | apply preserves_new_array]. }
  intros analysis_points _.
  eapply preserves_bind; [by apply preserves_set|]. intros _ _.
  by apply preserves_ret.
Qed.

Lemma calls_frame (rt : runtime) (this : positive)
    (cs : list ((thrown + list N) * hval)) (h : gmap positive hobj) :
  h ⊆ calls rt this cs h.
Proof.
  revert h. induction cs as [|[hook company_data] cs IH]; intros h; simpl; [done|].
  etrans; [apply research_company_frame | apply IH].
Qed.


Lemma bot_shape_mono (h h' : gmap positive hobj) (this : positive) :
  h ⊆ h' → bot_shape h this → bot_shape h' this.
Proof.
  intros Hsub (t & c & m & b & a & kp & rd & ch & pa & H).
  exists t, c, m, b, a, kp, rd, ch, pa.
  repeat match goal with
         | H : _ ∧ _ |- _ => destruct H as [? H]
         end.
  repeat split; by eapply lookup_weaken.
Qed.

Lemma reify_object (d : nat) (h : gmap positive hobj) (l : positive)
    (ps : list (list N * hval)) :
  h !! l = Some (object ps) →
  reify (S d) h (HRef l) = JObj (reify d h <$> list_to_map ps).
Proof. intros Hl. simpl. by rewrite Hl. Qed.

Lemma reify_empty_array (d : nat) (h : gmap positive hobj) (l : positive) :
  h !! l = Some (array []) → reify (S d) h (HRef l) = JArr [].
Proof. intros Hl. simpl. by rewrite Hl. Qed.

Lemma reify_null (d : nat) (h : gmap positive hobj) : reify d h HNull = JNull.
Proof. by destruct d. Qed.

Lemma reify_bot (h : gmap positive hobj) (this : positive) :
  bot_shape h this →
  reify 4 h (HRef this)
  = JObj {[ lit "story_template" := story_value Bot.story_template ]}.
Proof.
  intros (t & c & m & b & a & kp & rd & ch & pa
          & Hthis & Ht & Hc & Hm & Hb & Ha & Hkp & Hrd & Hch & Hpa).
  rewrite (reify_object _ _ _ _ Hthis).
  unfold list_to_map. cbn [foldr fst snd]. rewrite fmap_insert, fmap_empty.
  rewrite (reify_object _ _ _ _ Ht).
  unfold list_to_map. cbn [foldr fst snd]. rewrite !fmap_insert, fmap_empty.
  rewrite (reify_object _ _ _ _ Hc), (reify_object _ _ _ _ Hm), (reify_object _ _ _ _ Hb).
  unfold list_to_map. cbn [foldr fst snd]. rewrite !fmap_insert, !fmap_empty.
  rewrite (reify_empty_array _ _ _ Ha), (reify_empty_array _ _ _ Hkp),
    (reify_empty_array _ _ _ Hrd), (reify_empty_array _ _ _ Hch),
    (reify_empty_array _ _ _ Hpa).
  rewrite !reify_null. reflexivity.
Qed.

Lemma alloc_spec (o : hobj) (h : gmap positive hobj) :
  ∃ l, alloc o h = (<[l := o]> h, inr l) ∧ h !! l = None.
Proof.
  exists (fresh (dom h)). split; [done|]. apply not_elem_of_dom, is_fresh.
Qed.

Lemma constructor_shape (h0 : gmap positive hobj) :
  ∃ h1 this, constructor h0 = (h1, inr this) ∧ bot_shape h1 this.
Proof.
  unfold constructor, new_array, new_object, Heap.bind, Heap.ret.
  repeat match goal with
  | |- context [alloc ?o ?h] =>
      let l := fresh "l" in let Hl := fresh "Hl" in let E := fresh "E" in
      destruct (alloc_spec o h) as (l & E & Hl); rewrite E; clear E; cbn beta iota
  end.
  repeat match goal with
  | H : <[_ := _]> _ !! _ = None |- _ => apply lookup_insert_None in H as [H ?]
  end.
  eexists _, l. split; [reflexivity|].
  exists l8, l2, l3, l6, l7, l0, l1, l4, l5.
  unfold Heap.set, fst.
  repeat split.
  all: try (rewrite lookup_alter_ne by done).
  all: try rewrite lookup_alter_eq.
  all: repeat (rewrite lookup_insert_ne by congruence).
  all: by rewrite lookup_insert_eq.
Qed.

Lemma bind_returns {A B} (m : H A) (f : A → H B) (h h' : gmap positive hobj) (a : A) :
  m h = (h', inr a) → Heap.bind m f h = f a h'.
Proof. intros Hm. unfold Heap.bind. by rewrite Hm. Qed.

Lemma get_property (rt : runtime) (h : gmap positive hobj) (l : positive)
    (o : hobj) (k : list N) :
  h !! l = Some o →
  get rt (HRef l) k h = (h, inr (default HUndefined (props o !! k))).
Proof. intros Hl. unfold get, Heap.bind, own_props, props_of. simpl. by rewrite Hl. Qed.

Lemma spread_spec (a b : hval) (h : gmap positive hobj) :
  ∃ l, spread a b h
       = (<[l := {| is_array := false; props := props_of h b ∪ props_of h a |}]> h, inr l)
       ∧ h !! l = None.
Proof.
  unfold spread, Heap.bind, own_props. simpl. apply alloc_spec.
Qed.


Lemma bind_spread {B} (a b : hval) (f : positive → H B) (h : gmap positive hobj) :
  ∃ l, Heap.bind (spread a b) f h
       = f l (<[l := {| is_array := false; props := props_of h b ∪ props_of h a |}]> h)
       ∧ h !! l = None.
Proof.
  destruct (spread_spec a b h) as (l & E & Hl). exists l.
  split; [|done]. by apply bind_returns.
Qed.

Lemma bind_new_array {B} (f : hval → H B) (h : gmap positive hobj) :
  ∃ l, Heap.bind new_array f h = f (HRef l) (<[l := array []]> h) ∧ h !! l = None.
Proof.
  destruct (alloc_spec (array []) h) as (l & E & Hl). exists l.
  split; [|done]. unfold new_array. by rewrite (bind_returns _ _ h (<[l := array []]> h) (HRef l))
    by (by rewrite (bind_returns _ _ h (<[l := array []]> h) l)).
Qed.

Lemma bind_set {B} (l : positive) (k : list N) (v : hval) (f : () → H B)
    (h : gmap positive hobj) :
  Heap.bind (set l k v) f h
  = f () (alter (λ o, {| is_array := is_array o; props := <[k := v]> (props o) |}) l h).
Proof. done. Qed.

Lemma get_primitive (rt : runtime) (b : bool) (k : list N) (h : gmap positive hobj) :
  get rt (HBool b) k h = (h, inr HUndefined).
Proof. done. Qed.

Lemma props_of_ref (h : gmap positive hobj) (l : positive) (o : hobj) :
  h !! l = Some o → props_of h (HRef l) = props o.
Proof. intros Hl. unfold props_of. by rewrite Hl. Qed.

Lemma cell_after_insert (h : gmap positive hobj) (l : positive) (o : hobj)
    (x : positive) (y : hobj) :
  h !! l = None → h !! x = Some y → <[l := o]> h !! x = Some y.
Proof. intros Hl Hx. rewrite lookup_insert_ne; [done | congruence]. Qed.

Lemma cell_after_alter (h : gmap positive hobj) (s : positive) (f : hobj → hobj)
    (x : positive) (y : hobj) :
  x ≠ s → h !! x = Some y → alter f s h !! x = Some y.
Proof. intros Hne Hx. by rewrite lookup_alter_ne. Qed.

Lemma cell_altered (h : gmap positive hobj) (s : positive) (f : hobj → hobj) (y : hobj) :
  h !! s = Some y → alter f s h !! s = Some (f y).
Proof. intros Hs. by rewrite lookup_alter_eq, Hs. Qed.

(** One allocation further: the cells known so far are kept and differ
    from the new one. *)
Ltac track_alloc l Hl :=
  match type of Hl with
  | ?hcur !! l = None =>
      match goal with
      | |- context [<[l := ?o]> hcur] =>
          repeat match goal with
                 | H : hcur !! ?x = Some ?y |- _ =>
                     assert (x ≠ l) by congruence;
                     apply (cell_after_insert hcur l o x y Hl) in H
                 end;
          let Hnew := fresh "Hcell" in
          assert (Hnew : <[l := o]> hcur !! l = Some o) by apply lookup_insert_eq;
          let hn := fresh "h" in
          set (hn := <[l := o]> hcur) in *; clearbody hn; clear Hl
      end
  end.

(** One property written: the cell written to changes, the others are
    kept. *)
Ltac track_set :=
  match goal with
  | |- context [alter ?f ?s ?hcur] =>
      repeat match goal with
             | H : hcur !! s = Some ?y |- _ =>
                 apply (cell_altered hcur s f y) in H
             | H : hcur !! ?x = Some ?y |- _ =>
                 apply (cell_after_alter hcur s f x y ltac:(congruence)) in H
             end;
      let hn := fresh "h" in
      set (hn := alter f s hcur) in *; clearbody hn;
      cbn [is_array props] in *
  end.

Ltac step_get rt :=
  erewrite bind_returns by (first [apply get_primitive | apply get_property; eassumption]);
  cbn [props];
  try match goal with
      | |- context [default HUndefined ?x] =>
          let y := eval vm_compute in x in change x with y;
          cbn [from_option id]
      end.


Ltac simplify_props hcur :=
  repeat match goal with
         | H : hcur !! ?x = Some ?o |- context [props_of hcur (HRef ?x)] =>
             rewrite (props_of_ref hcur x o H)
         end;
  cbn [props_of].

Ltac step_spread l :=
  match goal with
  | |- context [Heap.bind (spread ?a ?b) ?f ?hcur] =>
      let E := fresh "E" in
      let Hl := fresh "Hl" in
      destruct (bind_spread a b f hcur) as (l & E & Hl); rewrite E; clear E;
      cbn beta; simplify_props hcur; track_alloc l Hl
  end.

Ltac step_new_array l :=
  match goal with
  | |- context [Heap.bind new_array ?f ?hcur] =>
      let E := fresh "E" in
      let Hl := fresh "Hl" in
      destruct (bind_new_array f hcur) as (l & E & Hl); rewrite E; clear E;
      cbn beta; track_alloc l Hl
  end.

Ltac step_set := rewrite bind_set; track_set.

Lemma reify_plain (d : nat) (h : gmap positive hobj) (l : positive) (o : hobj) :
  h !! l = Some o → is_array o = false →
  reify (S d) h (HRef l) = JObj (reify d h <$> props o).
Proof. intros Hl Ho. simpl. by rewrite Hl, Ho. Qed.

Lemma research_company_defaults (rt : runtime) (text : list N)
    (h : gmap positive hobj) (this : positive) :
  bot_shape h this →
  ∃ h' s, research_company rt (inr text) this (HBool true) h = (h', inr (HRef s))
          ∧ reify 3 h' (HRef s)
            = story_value {|
                headline := JStr text;
                context := context Bot.story_template;
                metrics := metrics Bot.story_template;
                business_model := business_model Bot.story_template;
                analysis_points := JArr [];
              |}.
Proof.
  intros (t & c & m & b & a & kp & rd & ch & pa
          & Hthis & Ht & Hc & Hm & Hb & Ha & Hkp & Hrd & Hch & Hpa).
  unfold research_company.
  step_get rt. step_spread s.
  erewrite bind_returns by reflexivity.
  step_set.
  step_get rt. step_get rt. step_spread m'. step_set.
  step_get rt. step_get rt. step_spread b'. step_set.
  step_get rt. step_get rt. step_spread c'. step_set.
  step_get rt. cbn [truthy]. step_new_array a'. step_set.
  eexists _, s. split; [reflexivity|].
  rewrite (reify_plain _ _ _ _ Hcell) by done. cbn [props object].
  unfold list_to_map. cbn [foldr fst snd].
  rewrite !fmap_insert, map_fmap_union, !fmap_insert, !fmap_empty.
  rewrite (reify_plain _ _ _ _ Hcell0), (reify_plain _ _ _ _ Hcell1),
    (reify_plain _ _ _ _ Hcell2) by done.
  rewrite (reify_empty_array _ _ _ Hcell3).
  rewrite (reify_object _ _ _ _ Hc), (reify_object _ _ _ _ Hm), (reify_object _ _ _ _ Hb).
  rewrite (reify_empty_array _ _ _ Ha).
  cbn [props object]. unfold list_to_map. cbn [foldr fst snd].
  rewrite !map_fmap_union, !fmap_insert, !fmap_empty.
  rewrite (reify_empty_array _ _ _ Hkp), (reify_empty_array _ _ _ Hrd),
    (reify_empty_array _ _ _ Hch), (reify_empty_array _ _ _ Hpa).
  rewrite !reify_null. change (reify 2 h9 (HStr text)) with (JStr text).
  vm_compute. reflexivity.
Qed.

(** C10: no call changes the template of the bot.  Whatever store the
    constructor runs in, the bot it builds reads as the template with
    its defaults (null headline, null metric fields, empty lists); every
    call of [research_company], on any bot, with any profile and any
    outcome of the headline step, leaves every object that was in the
    store as it was, because it writes only to the copy it has made; so
    after any number of calls on the bot its template, read out of the
    store with the objects it refers to, is what it was at the start, and
    a further call with a profile that has no properties returns a story
    with exactly those defaults. *)
Theorem template_never_mutated (rt : runtime) (h0 : gmap positive hobj)
    (cs : list ((thrown + list N) * hval)) :
  ∃ h1 this,
    constructor h0 = (h1, inr this)
    ∧ reify 4 h1 (HRef this)
      = JObj {[ lit "story_template" := story_value Bot.story_template ]}
    ∧ (∀ hook bot company_data h,
         h ⊆ fst (research_company rt hook bot company_data h))
    ∧ h1 ⊆ calls rt this cs h1
    ∧ reify 4 (calls rt this cs h1) (HRef this) = reify 4 h1 (HRef this)
    ∧ (∀ text, ∃ h2 s,
         research_company rt (inr text) this (HBool true) (calls rt this cs h1)
         = (h2, inr (HRef s))
         ∧ reify 3 h2 (HRef s)
           = story_value {|
               headline := JStr text;
               context := context Bot.story_template;
               metrics := metrics Bot.story_template;
               business_model := business_model Bot.story_template;
               analysis_points := JArr [];
             |}).
Proof.
  destruct (constructor_shape h0) as (h1 & this & Hc & Hshape).
  exists h1, this. split; [done|].
  split; [by apply reify_bot|].
  split; [intros; apply research_company_frame|].
  split; [apply calls_frame|].
  assert (bot_shape (calls rt this cs h1) this)
    by (eapply bot_shape_mono; [apply calls_frame | done]).
  split; [by rewrite !reify_bot|].
  intros text. by apply research_company_defaults.
Qed.

(** *** What the story shares with the template *)

Lemma path_cons (h : gmap positive hobj) (l : positive) (o : hobj) (k : list N)
    (ks : list (list N)) :
  h !! l = Some o →
  Sharing.path h (HRef l) (k :: ks)
  = Sharing.path h (default HUndefined (props o !! k)) ks.
Proof. intros Hl. simpl. by rewrite Hl. Qed.

Lemma path_step (h : gmap positive hobj) (v : hval) (k : list N) (ks : list (list N)) :
  Sharing.path h v (k :: ks) = Sharing.path h (Sharing.path h v [k]) ks.
Proof. done. Qed.

(** A value that is no dangling reference is a reference to an object of
    the store or has properties that no store changes. *)
Lemma props_of_cases (h : gmap positive hobj) (v : hval) :
  (∀ l, v = HRef l → is_Some (h !! l)) →
  ∃ p, props_of h v = p
       ∧ ((∃ l o, v = HRef l ∧ h !! l = Some o ∧ props o = p)
          ∨ ((∀ l, v ≠ HRef l) ∧ ∀ h', props_of h' v = p)).
Proof.
  intros Hv. exists (props_of h v). split; [done|].
  destruct v as [| |b|x|s|l]; try (right; by split).
  left. destruct (Hv l eq_refl) as [o Ho]. exists l, o.
  split; [done|]. split; [done|]. symmetry. by apply props_of_ref.
Qed.

Lemma overlay_lookup (p q : gmap (list N) hval) (k : list N) :
  default HUndefined ((p ∪ q) !! k)
  = match p !! k with
    | Some v => v
    | None => default HUndefined (q !! k)
    end.
Proof.
  rewrite lookup_union. by destruct (p !! k), (q !! k).
Qed.

Lemma supplied_value (o : hobj) (k : list N) (h : gmap positive hobj) :
  (∀ k l, props o !! k = Some (HRef l) → is_Some (h !! l)) →
  ∀ l, default HUndefined (props o !! k) = HRef l → is_Some (h !! l).
Proof.
  intros Hclosed l Hl. apply (Hclosed k).
  destruct (props o !! k) as [v|]; simpl in Hl; by subst.
Qed.

Ltac settle_props :=
  repeat match goal with
         | Hp : ∀ h1, props_of h1 ?v = ?p, H : context [props_of _ ?v] |- _ =>
             lazymatch type of H with
             | ∀ _, _ => fail
             | _ => rewrite Hp in H
             end
         end.

Ltac step_get_supplied E :=
  erewrite bind_returns by (apply get_property; eassumption);
  rewrite <- E.

(** The story that [research_company] returns is a copy one level deep,
    whatever the profile holds.  The story is an object other than the
    template and the profile.  Its [context], [metrics] and
    [business_model] are objects of their own, other than those of the
    template and of the profile.  But every property inside them is the
    value the profile gives or else the value of the template as it is, a
    reference included: a list that the profile does not give is the very
    list object of the template, reached from both.  [analysis_points]
    is the value of the profile itself when that is truthy, the caller's
    list object for one, and otherwise a new empty list, not the one of
    the template. *)
Theorem story_shares_lists (rt : runtime) (text : list N)
    (h : gmap positive hobj) (this cd : positive) (o : hobj) :
  bot_shape h this →
  h !! cd = Some o →
  (∀ k l, props o !! k = Some (HRef l) → is_Some (h !! l)) →
  ∃ h' s,
    research_company rt (inr text) this (HRef cd) h = (h', inr (HRef s))
    ∧ Sharing.path h (HRef this) [lit "story_template"] ≠ HRef s
    ∧ cd ≠ s
    ∧ (∀ k, k ∈ [Bot.key_context; Bot.key_metrics; Bot.key_business_model] →
         ∃ l l', Sharing.path h (HRef this) [lit "story_template"; k] = HRef l
                 ∧ Sharing.path h' (HRef s) [k] = HRef l'
                 ∧ l ≠ l'
                 ∧ Sharing.path h (HRef cd) [k] ≠ HRef l')
    ∧ (∀ k k', k ∈ [Bot.key_context; Bot.key_metrics; Bot.key_business_model] →
         Sharing.path h' (HRef s) [k; k']
         = match props_of h (Sharing.path h (HRef cd) [k]) !! k' with
           | Some v => v
           | None => Sharing.path h (HRef this) [lit "story_template"; k; k']
           end)
    ∧ (∀ k k', [k; k'] ∈ Sharing.template_lists →
         props_of h (Sharing.path h (HRef cd) [k]) !! k' = None →
         ∃ l, Sharing.path h (HRef this) [lit "story_template"; k; k'] = HRef l
              ∧ Sharing.path h' (HRef s) [k; k'] = HRef l)
    ∧ (truthy (Sharing.path h (HRef cd) [Bot.key_analysis_points]) = true →
       Sharing.path h' (HRef s) [Bot.key_analysis_points]
       = Sharing.path h (HRef cd) [Bot.key_analysis_points])
    ∧ (truthy (Sharing.path h (HRef cd) [Bot.key_analysis_points]) = false →
       ∃ l l', Sharing.path h (HRef this) [lit "story_template"; Bot.key_analysis_points]
               = HRef l
               ∧ Sharing.path h' (HRef s) [Bot.key_analysis_points] = HRef l'
               ∧ h' !! l' = Some (array [])
               ∧ l ≠ l').
Proof.
  intros (t & c & m & b & a & kp & rd & ch & pa
          & Hthis & Ht & Hc & Hm & Hb & Ha & Hkp & Hrd & Hch & Hpa) Hcd Hclosed.
  pose proof (supplied_value o Bot.key_context h Hclosed) as Dc.
  pose proof (supplied_value o Bot.key_metrics h Hclosed) as Dm.
  pose proof (supplied_value o Bot.key_business_model h Hclosed) as Db.
  remember (default HUndefined (props o !! Bot.key_context)) as vc eqn:Evc.
  remember (default HUndefined (props o !! Bot.key_metrics)) as vm eqn:Evm.
  remember (default HUndefined (props o !! Bot.key_business_model)) as vb eqn:Evb.
  remember (default HUndefined (props o !! Bot.key_analysis_points)) as va eqn:Eva.
  destruct (props_of_cases h vc Dc) as (pc & Fc & Sc).
  destruct (props_of_cases h vm Dm) as (pm & Fm & Sm).
  destruct (props_of_cases h vb Db) as (pb & Fb & Sb).
  clear Dc Dm Db Hclosed.
  enough (∃ h' s c' m' b',
    research_company rt (inr text) this (HRef cd) h = (h', inr (HRef s))
    ∧ t ≠ s ∧ cd ≠ s
    ∧ (Sharing.path h' (HRef s) [Bot.key_context] = HRef c' ∧ c ≠ c' ∧ vc ≠ HRef c')
    ∧ (Sharing.path h' (HRef s) [Bot.key_metrics] = HRef m' ∧ m ≠ m' ∧ vm ≠ HRef m')
    ∧ (Sharing.path h' (HRef s) [Bot.key_business_model] = HRef b'
       ∧ b ≠ b' ∧ vb ≠ HRef b')
    ∧ (∀ k', Sharing.path h' (HRef c') [k']
             = match pc !! k' with
               | Some v => v
               | None => default HUndefined (props_of h (HRef c) !! k')
               end)
    ∧ (∀ k', Sharing.path h' (HRef m') [k']
             = match pm !! k' with
               | Some v => v
               | None => default HUndefined (props_of h (HRef m) !! k')
               end)
    ∧ (∀ k', Sharing.path h' (HRef b') [k']
             = match pb !! k' with
               | Some v => v
               | None => default HUndefined (props_of h (HRef b) !! k')
               end)
    ∧ (truthy va = true → Sharing.path h' (HRef s) [Bot.key_analysis_points] = va)
    ∧ (truthy va = false →
       ∃ l', Sharing.path h' (HRef s) [Bot.key_analysis_points] = HRef l'
             ∧ h' !! l' = Some (array []) ∧ a ≠ l'))
    as (h' & s & c' & m' & b' & Hrun & Hts & Hcds
        & (Hsc & Hcc & Hvc) & (Hsm & Hmm & Hvm) & (Hsb & Hbb & Hvb)
        & Hoc & Hom & Hob & Hyes & Hno).
  { assert (Pt : Sharing.path h (HRef this) [lit "story_template"] = HRef t)
      by (by rewrite (path_cons _ _ _ _ _ Hthis)).
    assert (Pc : ∀ ks, Sharing.path h (HRef this)
                         (lit "story_template" :: Bot.key_context :: ks)
                       = Sharing.path h (HRef c) ks)
      by (intros ks; by rewrite (path_cons _ _ _ _ _ Hthis), (path_cons _ _ _ _ _ Ht)).
    assert (Pm : ∀ ks, Sharing.path h (HRef this)
                         (lit "story_template" :: Bot.key_metrics :: ks)
                       = Sharing.path h (HRef m) ks)
      by (intros ks; by rewrite (path_cons _ _ _ _ _ Hthis), (path_cons _ _ _ _ _ Ht)).
    assert (Pb : ∀ ks, Sharing.path h (HRef this)
                         (lit "story_template" :: Bot.key_business_model :: ks)
                       = Sharing.path h (HRef b) ks)
      by (intros ks; by rewrite (path_cons _ _ _ _ _ Hthis), (path_cons _ _ _ _ _ Ht)).
    assert (Pa : Sharing.path h (HRef this)
                   [lit "story_template"; Bot.key_analysis_points] = HRef a)
      by (by rewrite (path_cons _ _ _ _ _ Hthis), (path_cons _ _ _ _ _ Ht)).
    assert (Qc : Sharing.path h (HRef cd) [Bot.key_context] = vc)
      by (by rewrite (path_cons _ _ _ _ _ Hcd), Evc).
    assert (Qm : Sharing.path h (HRef cd) [Bot.key_metrics] = vm)
      by (by rewrite (path_cons _ _ _ _ _ Hcd), Evm).
    assert (Qb : Sharing.path h (HRef cd) [Bot.key_business_model] = vb)
      by (by rewrite (path_cons _ _ _ _ _ Hcd), Evb).
    assert (Qa : Sharing.path h (HRef cd) [Bot.key_analysis_points] = va)
      by (by rewrite (path_cons _ _ _ _ _ Hcd), Eva).
    assert (Hlevel : ∀ k k',
              k ∈ [Bot.key_context; Bot.key_metrics; Bot.key_business_model] →
              Sharing.path h' (HRef s) [k; k']
              = match props_of h (Sharing.path h (HRef cd) [k]) !! k' with
                | Some v => v
                | None => Sharing.path h (HRef this) [lit "story_template"; k; k']
                end).
    { intros k k' Hk. rewrite !elem_of_cons, elem_of_nil in Hk.
      destruct Hk as [->|[->|[->|[]]]].
      - by rewrite path_step, Hsc, Hoc, Qc, Fc, Pc.
      - by rewrite path_step, Hsm, Hom, Qm, Fm, Pm.
      - by rewrite path_step, Hsb, Hob, Qb, Fb, Pb. }
    exists h', s. split; [done|]. split; [rewrite Pt; congruence|]. split; [done|].
    split; [|split; [done|split; [|split]]].
    - intros k Hk. rewrite !elem_of_cons, elem_of_nil in Hk.
      destruct Hk as [->|[->|[->|[]]]].
      + exists c, c'. by rewrite (Pc []), Qc.
      + exists m, m'. by rewrite (Pm []), Qm.
      + exists b, b'. by rewrite (Pb []), Qb.
    - intros k k' Hks Hnone. unfold Sharing.template_lists in Hks.
      rewrite !elem_of_cons, elem_of_nil in Hks.
      destruct Hks as [[= -> ->]|[[= -> ->]|[[= -> ->]|[[= -> ->]|[]]]]].
      + exists kp. rewrite Hlevel, Hnone by (rewrite !elem_of_cons; tauto).
        by rewrite Pc, (path_cons _ _ _ _ _ Hc).
      + exists rd. rewrite Hlevel, Hnone by (rewrite !elem_of_cons; tauto).
        by rewrite Pc, (path_cons _ _ _ _ _ Hc).
      + exists ch. rewrite Hlevel, Hnone by (rewrite !elem_of_cons; tauto).
        by rewrite Pb, (path_cons _ _ _ _ _ Hb).
      + exists pa. rewrite Hlevel, Hnone by (rewrite !elem_of_cons; tauto).
        by rewrite Pb, (path_cons _ _ _ _ _ Hb).
    - rewrite Qa. exact Hyes.
    - rewrite Qa, Pa. intros Hva. destruct (Hno Hva) as (l' & ? & ? & ?).
      by exists a, l'. }
  clear Fc Fm Fb.
  rewrite (props_of_ref _ _ _ Hc), (props_of_ref _ _ _ Hm), (props_of_ref _ _ _ Hb).
  destruct Sc as [(lc & oc & -> & Hlc & <-)|[Hnc Hpc]];
    destruct Sm as [(lm & om & -> & Hlm & <-)|[Hnm Hpm]];
    destruct Sb as [(lb & ob & -> & Hlb & <-)|[Hnb Hpb]].
  all: unfold research_company.
  all: step_get rt; step_spread s.
  all: erewrite bind_returns by reflexivity.
  all: step_set.
  all: step_get rt; step_get_supplied Evm; step_spread m'; settle_props; step_set.
  all: step_get rt; step_get_supplied Evb; step_spread b'; settle_props; step_set.
  all: step_get rt; step_get_supplied Evc; step_spread c'; settle_props; step_set.
  all: step_get_supplied Eva.
  all: destruct (truthy va) eqn:Hva;
    [erewrite bind_returns by reflexivity | step_new_array a'];
    step_set.
  all: eexists _, s, c', m', b'; split; [reflexivity|].
  all: split; [done|]; split; [done|].
  all: split; [split; [by rewrite (path_cons _ _ _ _ _ Hcell)|];
               split; [done|first [congruence | by apply Hnc]]|].
  all: split; [split; [by rewrite (path_cons _ _ _ _ _ Hcell)|];
               split; [done|first [congruence | by apply Hnm]]|].
  all: split; [split; [by rewrite (path_cons _ _ _ _ _ Hcell)|];
               split; [done|first [congruence | by apply Hnb]]|].
  all: split; [intros k'; rewrite (path_cons _ _ _ _ _ Hcell2); cbn [Sharing.path props];
               apply overlay_lookup|].
  all: split; [intros k'; rewrite (path_cons _ _ _ _ _ Hcell0); cbn [Sharing.path props];
               apply overlay_lookup|].
  all: split; [intros k'; rewrite (path_cons _ _ _ _ _ Hcell1); cbn [Sharing.path props];
               apply overlay_lookup|].
  all: split; [intros ?; try done; by rewrite (path_cons _ _ _ _ _ Hcell)|].
  all: intros ?; try done.
  all: exists a'; split; [by rewrite (path_cons _ _ _ _ _ Hcell)|]; by split.
Qed.

Lemma story_shares_lists_witness :
  ∃ h' s,
    research_company Sample.rt (inr (lit "Acme soars")) 1 (HRef 12) Cases.store
    = (h', inr (HRef s))
    ∧ Sharing.path h' (HRef s) [Bot.key_context; lit "key_players"] = HRef 13
    ∧ Sharing.path h' (HRef s) [Bot.key_context; lit "recent_developments"] = HRef 3
    ∧ Sharing.path h' (HRef s) [Bot.key_analysis_points] = HRef 11.
Proof.
  assert (Hs : bot_shape Cases.store 1).
  { exists 10%positive, 4%positive, 5%positive, 8%positive, 9%positive,
      2%positive, 3%positive, 6%positive, 7%positive.
    repeat match goal with |- _ ∧ _ => split end; vm_compute; reflexivity. }
  assert (Hc : Cases.store !! 12%positive
               = Some (object [(Bot.key_context, HRef 14);
                               (Bot.key_analysis_points, HRef 11)])).
  { vm_compute. reflexivity. }
  assert (Hr : ∀ k l,
            props (object [(Bot.key_context, HRef 14);
                           (Bot.key_analysis_points, HRef 11)]) !! k = Some (HRef l) →
            is_Some (Cases.store !! l)).
  { intros k l. cbn [props object list_to_map foldr fst snd].
    rewrite !lookup_insert_Some, lookup_empty.
    intros [[_ [= <-]]|[_ [[_ [= <-]]|[_ [=]]]]]; vm_compute; eexists; reflexivity. }
  destruct (story_shares_lists Sample.rt (lit "Acme soars") Cases.store 1 12 _ Hs Hc Hr)
    as (h' & s & E & _ & _ & _ & Hlevel & Hshared & Hpoints & _).
  exists h', s. split; [exact E|]. split; [|split].
  - rewrite (Hlevel Bot.key_context (lit "key_players")) by (rewrite !elem_of_cons; tauto).
    vm_compute. reflexivity.
  - destruct (Hshared Bot.key_context (lit "recent_developments")) as (l & Hl & ->).
    + unfold Sharing.template_lists. rewrite !elem_of_cons. tauto.
    + vm_compute. reflexivity.
    + rewrite <- Hl. vm_compute. reflexivity.
  - rewrite Hpoints; vm_compute; reflexivity.
Defined.

End store.

(** ** A falsy [company_data] *)

Section truthiness.
Import JsString Js Route.

Lemma POST_begins_with_acquisition (rt : runtime) (w : world)
    (json company_name company_data : jsval) :
  get rt json (lit "company_name") = inr company_name →
  get rt json (lit "company_data") = inr company_data →
  ∃ tail, fst (POST rt w (inr json))
          = fst (acquisition rt w company_name company_data) ++ tail.
Proof.
  intros Hname Hdata. unfold POST.
  rewrite (POST_try_stages rt w json company_name company_data) by done.
  destruct (acquisition rt w company_name company_data) as [ta [e|[rd raw]]];
    [by eexists|].
  destruct (negb (truthy rd) && negb (truthy raw)); [by eexists|].
  destruct (generation rt w company_name rd) as [tg [e|fs]].
  - eexists. simpl. by rewrite <- app_assoc.
  - destruct (rendering w fs raw) as [tr [e|r]]; eexists; simpl;
      [by rewrite <- app_assoc | done].
Qed.

Lemma research_calls_api (rt : runtime) (w : world) (company_name : jsval)
    (key : list N) :
  env_PERPLEXITY_API_KEY w = Some key → key ≠ [] →
  has_string_form company_name = true →
  ∃ tail, fst (researchCompanyWithPerplexity rt w company_name)
          = AxiosPost company_name key :: tail.
Proof.
  intros Hkey Hne Hcn. unfold researchCompanyWithPerplexity. rewrite Hkey.
  destruct key as [|k0 key]; [done|]. unfold to_string. rewrite Hcn.
  unfold message_content, clean_message, try_catch, bind, emit, lift, throw, ret.
  repeat (case_match; simplify_eq/=); by eexists.
Qed.

(** C9: whether the caller supplied a profile is decided by the truthiness
    of [company_data].  A body whose [company_data] is [null], [false],
    [0] or the empty string (any falsy value) gets the response and causes
    the events that the same body without the property gets, and with a
    credential in the environment and a company name that has a string
    form the research API is called. *)
Theorem falsy_company_data_is_no_profile (rt : runtime) (w : world)
    (o : gmap (list N) jsval) (company_data : jsval) :
  o !! lit "company_data" = Some company_data →
  truthy company_data = false →
  POST rt w (inr (JObj o)) = POST rt w (inr (JObj (delete (lit "company_data") o)))
  ∧ (∀ key, env_PERPLEXITY_API_KEY w = Some key → key ≠ [] →
            has_string_form (default JUndefined (o !! lit "company_name")) = true →
            AxiosPost (default JUndefined (o !! lit "company_name")) key
            ∈ fst (POST rt w (inr (JObj o))))
  ∧ truthy JNull = false ∧ truthy (JBool false) = false
  ∧ truthy (JNum (S754_zero false)) = false ∧ truthy (JStr []) = false.
Proof.
  intros Ho Hcd.
  set (company_name := default JUndefined (o !! lit "company_name")).
  assert (Hname : get rt (JObj o) (lit "company_name") = inr company_name) by done.
  assert (Hdata : get rt (JObj o) (lit "company_data") = inr company_data)
    by (by rewrite get_object, Ho).
  assert (Hname' : get rt (JObj (delete (lit "company_data") o)) (lit "company_name")
                   = inr company_name)
    by (by rewrite get_object, lookup_delete_ne).
  assert (Hdata' : get rt (JObj (delete (lit "company_data") o)) (lit "company_data")
                   = inr JUndefined)
    by (by rewrite get_object, lookup_delete_eq).
  split; [|split; [|done]].
  - unfold POST.
    rewrite (POST_try_stages rt w _ company_name company_data) by done.
    rewrite (POST_try_stages rt w _ company_name JUndefined) by done.
    rewrite !acquisition_researched by done.
    destruct (researchCompanyWithPerplexity rt w company_name) as [t [e|v]]; [|done].
    rewrite Hcd. simpl. unfold generation. by rewrite Hcd.
  - intros key Hkey Hne Hcn.
    destruct (POST_begins_with_acquisition rt w _ _ _ Hname Hdata) as [tail ->].
    rewrite acquisition_researched by done.
    destruct (research_calls_api rt w company_name key Hkey Hne Hcn) as [tail' Hres].
    destruct (researchCompanyWithPerplexity rt w company_name) as [t [e|v]];
      simpl in Hres; subst t; simpl; apply elem_of_cons; by left.
Qed.

Lemma falsy_company_data_is_no_profile_witness :
  POST Sample.rt (Sample.with_key Sample.offline) (Sample.request (JStr []))
  = POST Sample.rt (Sample.with_key Sample.offline)
      (inr (JObj (delete (lit "company_data")
                    (<[lit "company_name" := JStr (lit "Acme")]> (
                     <[lit "company_data" := JStr []]> ∅)))))
  ∧ AxiosPost (JStr (lit "Acme")) (lit "pplx-key")
    ∈ fst (POST Sample.rt (Sample.with_key Sample.offline) (Sample.request (JStr []))).
Proof.
  pose proof (falsy_company_data_is_no_profile Sample.rt
                (Sample.with_key Sample.offline)
                (<[lit "company_name" := JStr (lit "Acme")]> (
                 <[lit "company_data" := JStr []]> ∅))
                (JStr [])) as H.
  destruct H as (Hsame & Hcall & _).
  - vm_compute. reflexivity.
  - reflexivity.
  - split; [exact Hsame|]. apply Hcall.
    + reflexivity.
    + discriminate.
    + reflexivity.
Defined.

End truthiness.

(** * Further properties of the handler *)

(** ** The paths of a request *)

Section paths.
Import JsString Js Route Pipeline.

(** The acquisition stage catches whatever the research throws. *)
Lemma acquisition_returns (rt : runtime) (w : world) (company_name company_data : jsval) :
  ∃ ta research_data rawApiResponse,
    acquisition rt w company_name company_data
    = (ta, inr (research_data, rawApiResponse)).
Proof.
  destruct (truthy company_data) eqn:Hcd.
  - rewrite acquisition_supplied by done. by eexists _, _, _.
  - rewrite acquisition_researched by done.
    destruct (researchCompanyWithPerplexity rt w company_name) as [t [e|v]];
      by eexists _, _, _.
Qed.

Lemma POST_paths (rt : runtime) (w : world) (req : thrown + jsval) : path rt w req.
Proof.
  destruct req as [e|json]; [apply (path_rejected _ _ _ e); [by left | done]|].
  destruct (get rt json (lit "company_name")) as [e|company_name] eqn:Hname.
  { apply (path_rejected _ _ _ e); [right; by eauto|].
    unfold POST, POST_try. simpl. by rewrite Hname. }
  destruct (get rt json (lit "company_data")) as [e|company_data] eqn:Hdata.
  { apply (path_rejected _ _ _ e); [right; by eauto|]. unfold POST, POST_try. simpl.
    rewrite Hname. simpl. by rewrite Hdata. }
  destruct (acquisition_returns rt w company_name company_data)
    as (ta & rd & raw & Hacq).
  pose proof (POST_try_stages rt w json company_name company_data Hname Hdata) as Htry.
  rewrite Hacq in Htry.
  destruct (truthy rd) eqn:Hrd; [|destruct (truthy raw) eqn:Hraw]; simpl in Htry.
  3: { eapply path_no_data; try done. unfold POST. by rewrite Htry. }
  all: destruct (generation rt w company_name rd) as [tg [e|fs]] eqn:Hgen.
  all: try (eapply path_generation_failed; try done; [by eauto|];
            unfold POST; by rewrite Htry, app_assoc).
  all: destruct (rendering w fs raw) as [tr [e|r]] eqn:Hr.
  all: try (eapply path_render_failed; try done; [by eauto|];
            unfold POST; by rewrite Htry, <- !app_assoc).
  all: eapply path_answered; try done; [by eauto|]; unfold POST; by rewrite Htry.
Qed.

End paths.

(** ** The markdown test and the rendering *)

Section rendered.
Import JsString Js Route Pipeline.




End rendered.

#[local] Set Warnings "-clear-no-such-hyp".

(** ** White space at the ends *)

Section trimming.
Import JsString Pipeline.

Lemma skip_spaces_head (s r : list N) (c : N) :
  skip_spaces s = c :: r → is_space c = false.
Proof.
  induction s as [|a s IH]; [done|]. simpl.
  destruct (is_space a) eqn:Ha; [done|]. by intros [= <- <-].
Qed.

Lemma skip_spaces_suffix (s : list N) :
  ∃ p, s = p ++ skip_spaces s ∧ Spec.all_spaces p.
Proof.
  induction s as [|a s (p & Hp & Hall)];
    [exists []; split; [done | constructor]|]. simpl.
  destruct (is_space a) eqn:Ha.
  - exists (a :: p). split; [by rewrite Hp at 1|]. by constructor.
  - exists []. split; [done | constructor].
Qed.

(** What [trim] returns has no white space at either end. *)
Lemma trim_trimmed (s : list N) : trimmed (trim s).
Proof.
  unfold trim. split.
  - intros c r Hc.
    destruct (skip_spaces_suffix (reverse (skip_spaces s))) as (p & Hp & _).
    apply (f_equal reverse) in Hp.
    rewrite reverse_involutive, reverse_app, Hc in Hp.
    by apply (skip_spaces_head s (r ++ reverse p)).
  - intros r c Hc. apply (f_equal reverse) in Hc.
    rewrite reverse_involutive, reverse_app in Hc.
    by apply (skip_spaces_head _ _ _ Hc).
Qed.

Lemma trimmed_nil : trimmed [].
Proof. split; [done|]. intros r c Hc. by destruct r. Qed.

End trimming.

(** ** The generation stage, case by case *)

Section generation_cases.
Import JsString Js Route Pipeline.

Lemma generate_hook_cases (rt : runtime) (w : world) (company_name : jsval) :
  (has_string_form company_name = false
   ∧ Bot.generate_hook rt w company_name
     = ([], inl (ThrowError (TypeError_message rt company_name (lit "toString")))))
  ∨ (has_string_form company_name = true
     ∧ ∃ e, generateText w (HookPrompt company_name) = inl e
            ∧ Bot.generate_hook rt w company_name
              = ([GenerateText (HookPrompt company_name)], inl e))
  ∨ (has_string_form company_name = true
     ∧ ∃ text, generateText w (HookPrompt company_name) = inr text
               ∧ Bot.generate_hook rt w company_name
                 = ([GenerateText (HookPrompt company_name)], inr (trim text))).
Proof.
  unfold Bot.generate_hook, to_string.
  destruct (has_string_form company_name); [|by left].
  right. destruct (generateText w (HookPrompt company_name)) as [e|text] eqn:Hgen.
  - left. split; [done|]. by exists e.
  - right. split; [done|]. by exists text.
Qed.

Lemma research_company_analysis_points (rt : runtime) (w : world)
    (company_name company_data : jsval) (t : list event) (s : story) :
  Bot.research_company rt w company_name company_data = (t, inr s) →
  truthy (analysis_points s) = true.
Proof.
  unfold Bot.research_company, bind, lift, ret.
  repeat (case_match; simplify_eq/=; try done).
  all: intros; simplify_eq/=; try done.
Qed.

Lemma generation_cases (rt : runtime) (w : world) (company_name research_data : jsval) :
  truthy research_data = true →
  (∃ th e, Bot.generate_hook rt w company_name = (th, inl e)
           ∧ generation rt w company_name research_data = (th, inl e))
  ∨ (∃ th, Bot.generate_hook rt w company_name = (th, inr [])
           ∧ generation rt w company_name research_data = (th, inl headline_is_null))
  ∨ (∃ th c hook sd,
       Bot.generate_hook rt w company_name = (th, inr (c :: hook))
       ∧ Bot.research_company rt w company_name research_data = (th, inr sd)
       ∧ headline sd = JStr (c :: hook)
       ∧ ((∃ e, generateText w (StoryPrompt sd) = inl e
                ∧ generation rt w company_name research_data
                  = (th ++ [GenerateText (StoryPrompt sd)], inl e))
          ∨ (∃ text, generateText w (StoryPrompt sd) = inr text
                     ∧ generation rt w company_name research_data
                       = (th ++ [GenerateText (StoryPrompt sd);
                                 ConsoleLog (lit "OpenAI Formatted Story:") text],
                          inr (trim text))))).
Proof.
  intros Hrd. unfold generation. rewrite Hrd.
  destruct (Bot.research_company rt w company_name research_data) as [t [e|sd]] eqn:Hrc.
  - left. exists t, e. split; [|done].
    revert Hrc. unfold Bot.research_company.
    destruct (Bot.generate_hook rt w company_name) as [th [e'|hook]];
      [by intros [= <- <-]|].
    rewrite !get_field by done. done.
  - destruct (research_company_story rt w company_name research_data t sd Hrd Hrc)
      as (hook & Hhook & Hhead & _).
    right. destruct hook as [|c hook].
    + left. exists t. split; [done|]. simpl. rewrite Hhead.
      change (truthy (JStr [])) with false. simpl. by rewrite app_nil_r.
    + right. exists t, c, hook, sd. split; [done|]. split; [done|]. split; [done|].
      simpl. rewrite Hhead. change (truthy (JStr (c :: hook))) with true. simpl.
      unfold Bot.format_story, bind, emit, lift, ret.
      destruct (generateText w (StoryPrompt sd)) as [e|text]; simpl.
      * left. by exists e.
      * right. by exists text.
Qed.

(** Every call that [format_story] makes is one of the generation stage. *)
Lemma story_call_is_generated (rt : runtime) (w : world) (req : thrown + jsval)
    (sd : story) :
  GenerateText (StoryPrompt sd) ∈ fst (POST rt w req) →
  ∃ company_name research_data,
    truthy research_data = true
    ∧ GenerateText (StoryPrompt sd)
      ∈ fst (generation rt w company_name research_data).
Proof.
  assert (Hnot : ∀ t, Forall (λ ev, ¬ Spec.is_generation_call ev) t →
                      GenerateText (StoryPrompt sd) ∉ t).
  { intros t Ht Hin. rewrite Forall_forall in Ht. by apply (Ht _ Hin). }
  assert (Hgen : ∀ cn rd, GenerateText (StoryPrompt sd) ∈ fst (generation rt w cn rd) →
                          ∃ company_name research_data,
                            truthy research_data = true
                            ∧ GenerateText (StoryPrompt sd)
                              ∈ fst (generation rt w company_name research_data)).
  { intros cn rd Hin. exists cn, rd. split; [|done].
    destruct (truthy rd) eqn:Hrd; [done|].
    unfold generation in Hin. rewrite Hrd in Hin. simpl in Hin. by apply elem_of_nil in Hin. }
  destruct (POST_paths rt w req)
    as [e _ Hp
       |json cn cd rd raw ta _ _ _ Hacq _ _ Hp
       |json cn cd rd raw ta tg e _ _ _ Hacq _ Hg Hp
       |json cn cd rd raw ta tg tr fs e _ _ _ Hacq _ Hg Hr Hp
       |json cn cd rd raw ta tg tr fs r _ _ _ Hacq _ Hg Hr Hp];
    rewrite Hp; simpl; rewrite ?elem_of_app, ?elem_of_cons, ?elem_of_nil;
    unfold failure_log.
  { naive_solver. }
  all: pose proof (acquisition_events rt w cn cd) as Ha;
       rewrite Hacq in Ha; simpl in Ha.
  all: assert (GenerateText (StoryPrompt sd) ∉ ta)
         by (apply Hnot; eapply Forall_impl; [exact Ha|]; simpl; tauto).
  { naive_solver. }
  { intros Hin. apply (Hgen cn rd). rewrite Hg. naive_solver. }
  all: pose proof (rendering_events w fs raw) as Hre;
       rewrite Hr in Hre; simpl in Hre.
  all: assert (GenerateText (StoryPrompt sd) ∉ tr)
         by (apply Hnot; eapply Forall_impl; [exact Hre|]; simpl; tauto).
  all: intros Hin; apply (Hgen cn rd); rewrite Hg; naive_solver.
Qed.

End generation_cases.

(** ** What reaches the generation API and what comes back *)

Section stories.
Import JsString Js Route Pipeline.

Lemma overlays_keeps_defaults (defaults : gmap (list N) jsval) (supplied : jsval)
    (result : gmap (list N) jsval) (k : list N) :
  Spec.overlays defaults supplied result →
  is_Some (defaults !! k) → is_Some (result !! k).
Proof.
  intros Hov Hk. rewrite (Hov k). by destruct (own_props supplied !! k).
Qed.

(** Every story handed to [format_story] has a headline that is a string,
    not empty and without white space at its ends, has every property of
    the template in its metrics, business model and context, and has
    analysis points that are not falsy. *)
Theorem story_is_complete (rt : runtime) (w : world) (req : thrown + jsval)
    (story_data : story) :
  GenerateText (StoryPrompt story_data) ∈ fst (POST rt w req) →
  (∃ c hook, headline story_data = JStr (c :: hook) ∧ trimmed (c :: hook))
  ∧ (∀ k, is_Some (metrics Bot.story_template !! k) →
          is_Some (metrics story_data !! k))
  ∧ (∀ k, is_Some (business_model Bot.story_template !! k) →
          is_Some (business_model story_data !! k))
  ∧ (∀ k, is_Some (context Bot.story_template !! k) →
          is_Some (context story_data !! k))
  ∧ truthy (analysis_points story_data) = true.
Proof.
  intros Hin.
  destruct (story_call_is_generated rt w req story_data Hin) as (cn & rd & Hrd & Hgen).
  assert (∃ th c hook, Bot.generate_hook rt w cn = (th, inr (c :: hook))
                       ∧ Bot.research_company rt w cn rd = (th, inr story_data)
                       ∧ headline story_data = JStr (c :: hook))
    as (th & c & hook & Hhook & Hrc & Hhead).
  { pose proof (generate_hook_events rt w cn) as Hev.
    assert (Hnot : ∀ th r, Bot.generate_hook rt w cn = (th, r) →
                           GenerateText (StoryPrompt story_data) ∉ th).
    { intros th r Hh Hth. rewrite Hh in Hev. simpl in Hev.
      rewrite Forall_forall in Hev. destruct (Hev _ Hth) as (_ & Hfs & _).
      by apply Hfs. }
    destruct (generation_cases rt w cn rd Hrd)
      as [(th & e & Hh & Hg)|[(th & Hh & Hg)|(th & c & hook & sd & Hh & Hrc & Hhd & Hg)]].
    - rewrite Hg in Hgen. by destruct (Hnot _ _ Hh).
    - rewrite Hg in Hgen. by destruct (Hnot _ _ Hh).
    - assert (story_data = sd) as ->; [|by eauto 10].
      destruct Hg as [(e & _ & Hg)|(text & _ & Hg)]; rewrite Hg in Hgen; simpl in Hgen;
        rewrite elem_of_app, !elem_of_cons, elem_of_nil in Hgen;
        destruct Hgen as [Hth|Hl]; try (by destruct (Hnot _ _ Hh));
        naive_solver. }
  destruct (research_company_story rt w cn rd th story_data Hrd Hrc)
    as (hook' & _ & _ & Hm & Hb & Hc & _).
  split; [|split; [|split; [|split]]].
  - exists c, hook. split; [done|].
    destruct (generate_hook_cases rt w cn) as [[_ Hh]|[(_ & e & _ & Hh)|(_ & text & _ & Hh)]];
      rewrite Hh in Hhook; simplify_eq.
    match goal with H : trim _ = _ |- _ => rewrite <- H end. apply trim_trimmed.
  - intros k. by apply overlays_keeps_defaults with (supplied := Spec.field rd Bot.key_metrics).
  - intros k.
    by apply overlays_keeps_defaults with (supplied := Spec.field rd Bot.key_business_model).
  - intros k. by apply overlays_keeps_defaults with (supplied := Spec.field rd Bot.key_context).
  - by apply (research_company_analysis_points rt w cn rd th).
Qed.

Lemma story_is_complete_witness :
  ∃ c hook,
    headline (match Bot.research_company Sample.rt Sample.offline
                      (JStr (lit "Acme")) Sample.profile with
              | (_, inr s) => s
              | (_, inl _) => Bot.story_template
              end)
    = JStr (c :: hook) ∧ trimmed (c :: hook).
Proof.
  apply (story_is_complete Sample.rt Sample.offline (Sample.request Sample.profile)).
  vm_compute. repeat constructor.
Defined.

End stories.

(** ** Responses and failures *)

Section outcomes.
Import JsString Js Route Pipeline.

(** What the acquisition stage leaves: no message, or the message of a
    failed research with the falsy [company_data] as data. *)
Lemma acquisition_result (rt : runtime) (w : world)
    (company_name company_data research_data rawApiResponse : jsval) (ta : list event) :
  acquisition rt w company_name company_data = (ta, inr (research_data, rawApiResponse)) →
  rawApiResponse = JNull
  ∨ ∃ e, rawApiResponse = JStr (Spec.diagnostic e) ∧ truthy research_data = false.
Proof.
  destruct (truthy company_data) eqn:Hcd.
  - rewrite acquisition_supplied by done. intros [= <- <- <-]. by left.
  - rewrite acquisition_researched by done.
    destruct (researchCompanyWithPerplexity rt w company_name) as [t [e|v]];
      intros [= <- <- <-]; [right; by exists e | by left].
Qed.

Lemma generation_without_data (rt : runtime) (w : world)
    (company_name research_data : jsval) :
  truthy research_data = false →
  generation rt w company_name research_data = ([], inr []).
Proof. intros Hrd. unfold generation. by rewrite Hrd. Qed.

Lemma rendering_nothing (w : world) (rawApiResponse : jsval) :
  rendering w [] rawApiResponse = ([], inr (json_ok [] [] false rawApiResponse)).
Proof. done. Qed.

(** Every response is the error response or has one of two forms.  In the
    first [rawApiResponse] is [null] and the story is the trimmed reply to
    the call that [format_story] made.  In the second [rawApiResponse] is
    a message that is not empty, the story and [htmlContent] are empty,
    [isMarkdown] is false, and neither the generation API nor the
    renderer was called.  In both the story has no white space at its
    ends. *)
Theorem response_forms (rt : runtime) (w : world) (req : thrown + jsval) :
  snd (POST rt w req) = json_error
  ∨ ∃ formatted_story htmlContent isMarkdown rawApiResponse,
      snd (POST rt w req) = json_ok formatted_story htmlContent isMarkdown rawApiResponse
      ∧ trimmed formatted_story
      ∧ ((rawApiResponse = JNull
          ∧ ∃ story_data text,
              GenerateText (StoryPrompt story_data) ∈ fst (POST rt w req)
              ∧ generateText w (StoryPrompt story_data) = inr text
              ∧ formatted_story = trim text)
         ∨ (∃ c message, rawApiResponse = JStr (c :: message)
            ∧ formatted_story = [] ∧ htmlContent = [] ∧ isMarkdown = false
            ∧ Forall (λ ev, ¬ Spec.is_generation_call ev ∧ ¬ Spec.is_render_call ev)
                (fst (POST rt w req)))).
Proof.
  destruct (POST_paths rt w req)
    as [e _ Hp
       |json cn cd rd raw ta _ _ _ Hacq _ _ Hp
       |json cn cd rd raw ta tg e _ _ _ Hacq _ Hg Hp
       |json cn cd rd raw ta tg tr fs e _ _ _ Hacq _ Hg Hr Hp
       |json cn cd rd raw ta tg tr fs r _ _ _ Hacq Hguard Hg Hr Hp];
    rewrite Hp; simpl; try (by left).
  right.
  destruct (rendering_returns w fs raw tr r Hr) as (html & md & -> & Hmd & Hyes & Hno).
  exists fs, html, md, raw. split; [done|].
  destruct (acquisition_result rt w cn cd rd raw ta Hacq) as [->|(e & -> & Hrd)].
  - destruct Hguard as [Hrd|Hraw]; [|done].
    destruct (generation_cases rt w cn rd Hrd)
      as [(th & e & _ & Hg')|[(th & _ & Hg')|(th & c & hook & sd & _ & _ & _ & Hg')]];
      rewrite Hg in Hg'; try done.
    destruct Hg' as [(e & _ & Hg')|(text & Htext & Hg')]; [done|].
    injection Hg' as -> ->. split; [apply trim_trimmed|]. left. split; [done|].
    exists sd, text. split; [|done].
    rewrite !elem_of_app, !elem_of_cons. tauto.
  - rewrite generation_without_data in Hg by done. injection Hg as <- <-.
    rewrite rendering_nothing in Hr. injection Hr as <- _.
    split; [apply trimmed_nil|]. right.
    destruct Hguard as [Hrd'|Hraw]; [congruence|].
    destruct (Spec.diagnostic e) as [|c message] eqn:Hd; [done|].
    exists c, message.
    pose proof (acquisition_events rt w cn cd) as Ha. rewrite Hacq in Ha.
    revert Hmd. simpl. intros ->.
    destruct (Hno eq_refl) as [-> _]. by rewrite !app_nil_r.
Qed.

(** The calls of the generation stage were all answered when the stage
    returns. *)
Lemma generation_answered (rt : runtime) (w : world) (company_name research_data : jsval)
    (tg : list event) (formatted_story : list N) (g : gen_request) :
  generation rt w company_name research_data = (tg, inr formatted_story) →
  GenerateText g ∈ tg → ∃ text, generateText w g = inr text.
Proof.
  intros Hg Hin. destruct (truthy research_data) eqn:Hrd.
  2: { rewrite generation_without_data in Hg by done. injection Hg as <- _.
       by apply elem_of_nil in Hin. }
  destruct (generation_cases rt w company_name research_data Hrd)
    as [(th & e & _ & Hg')|[(th & _ & Hg')|(th & c & hook & sd & Hh & _ & _ & Hg')]];
    rewrite Hg in Hg'; try done.
  destruct Hg' as [(e & _ & Hg')|(text & Htext & Hg')]; [done|].
  injection Hg' as -> _.
  destruct (generate_hook_cases rt w company_name)
    as [[_ Hh']|[(_ & e & _ & Hh')|(_ & text' & Htext' & Hh')]];
    rewrite Hh' in Hh; simplify_eq.
  rewrite !elem_of_app, !elem_of_cons, !elem_of_nil in Hin.
  destruct Hin as [[Hin|[]]|[Hin|[Hin|[]]]]; simplify_eq; by eauto.
Qed.

Ltac not_in_stage Hin Hev :=
  exfalso; rewrite Forall_forall in Hev; specialize (Hev _ Hin); simpl in Hev; tauto.

(** When a call of the generation API is rejected, the request is answered
    with the error response and the renderer is not called. *)
Theorem generation_failure_fails (rt : runtime) (w : world) (req : thrown + jsval)
    (g : gen_request) (e : thrown) :
  GenerateText g ∈ fst (POST rt w req) →
  generateText w g = inl e →
  snd (POST rt w req) = json_error
  ∧ Forall (λ ev, ¬ Spec.is_render_call ev) (fst (POST rt w req)).
Proof.
  intros Hin Hfail.
  destruct (POST_paths rt w req)
    as [e' _ Hp
       |json cn cd rd raw ta _ _ _ Hacq _ _ Hp
       |json cn cd rd raw ta tg e' _ _ _ Hacq _ Hg Hp
       |json cn cd rd raw ta tg tr fs e' _ _ _ Hacq _ Hg Hr Hp
       |json cn cd rd raw ta tg tr fs r _ _ _ Hacq _ Hg Hr Hp];
    rewrite Hp in *; simpl in *.
  - split; [done|]. constructor; [simpl; tauto | constructor].
  - pose proof (acquisition_events rt w cn cd) as Ha. rewrite Hacq in Ha.
    split; [done|]. apply Forall_app. split.
    + eapply Forall_impl; [exact Ha|]. simpl. tauto.
    + constructor; [simpl; tauto | constructor].
  - pose proof (acquisition_events rt w cn cd) as Ha. rewrite Hacq in Ha.
    pose proof (generation_events rt w cn rd) as Hge. rewrite Hg in Hge.
    split; [done|]. rewrite !Forall_app. split; [|split].
    + eapply Forall_impl; [exact Ha|]. simpl. tauto.
    + eapply Forall_impl; [exact Hge|]. simpl. tauto.
    + constructor; [simpl; tauto | constructor].
  - exfalso.
    pose proof (acquisition_events rt w cn cd) as Ha. rewrite Hacq in Ha.
    pose proof (rendering_events w fs raw) as Hre. rewrite Hr in Hre.
    rewrite !elem_of_app, elem_of_cons, elem_of_nil in Hin.
    destruct Hin as [Hin|[Hin|[Hin|[Hin|[]]]]].
    + not_in_stage Hin Ha.
    + destruct (generation_answered rt w cn rd tg fs g Hg Hin) as [text Ht]. congruence.
    + not_in_stage Hin Hre.
    + discriminate.
  - exfalso.
    pose proof (acquisition_events rt w cn cd) as Ha. rewrite Hacq in Ha.
    pose proof (rendering_events w fs raw) as Hre. rewrite Hr in Hre.
    rewrite !elem_of_app in Hin.
    destruct Hin as [Hin|[Hin|Hin]].
    + not_in_stage Hin Ha.
    + destruct (generation_answered rt w cn rd tg fs g Hg Hin) as [text Ht]. congruence.
    + not_in_stage Hin Hre.
Qed.

Lemma generation_failure_fails_witness :
  snd (POST Sample.rt (Cases.generation_down Sample.offline)
         (Sample.request Sample.profile)) = json_error
  ∧ Forall (λ ev, ¬ Spec.is_render_call ev)
      (fst (POST Sample.rt (Cases.generation_down Sample.offline)
              (Sample.request Sample.profile))).
Proof.
  apply (generation_failure_fails Sample.rt (Cases.generation_down Sample.offline)
           (Sample.request Sample.profile) (HookPrompt (JStr (lit "Acme")))
           (ThrowError (lit "Rate limit exceeded"))).
  - vm_compute. repeat constructor.
  - reflexivity.
Defined.

(** When the markdown transform throws, the request is answered with the
    error response, whatever story had been generated, and what was thrown
    is the last thing logged. *)
Theorem render_failure_fails (rt : runtime) (w : world) (req : thrown + jsval)
    (markdown : list N) (e : thrown) :
  RemarkProcess markdown ∈ fst (POST rt w req) →
  remark_process w markdown = inl e →
  snd (POST rt w req) = json_error
  ∧ ∃ t, fst (POST rt w req) = t ++ [RemarkProcess markdown; failure_log e].
Proof.
  intros Hin Hfail.
  assert (Hrender : ∀ fs raw tr r, rendering w fs raw = (tr, r) →
            RemarkProcess markdown ∈ tr →
            fs = markdown ∧ tr = [RemarkProcess markdown] ∧ r = inl e).
  { intros fs raw tr r. unfold rendering, markdownToHtml, bind, emit, lift, ret.
    destruct (includes fs (lit "##") || includes fs (lit "*")); simpl.
    - destruct (remark_process w fs) as [e'|html] eqn:Hrp; intros [= <- <-] Hm;
        apply list_elem_of_singleton in Hm; injection Hm as ->;
        rewrite Hfail in Hrp; by simplify_eq.
    - intros [= <- <-] Hm. by apply elem_of_nil in Hm. }
  destruct (POST_paths rt w req)
    as [e' _ Hp
       |json cn cd rd raw ta _ _ _ Hacq _ _ Hp
       |json cn cd rd raw ta tg e' _ _ _ Hacq _ Hg Hp
       |json cn cd rd raw ta tg tr fs e' _ _ _ Hacq _ Hg Hr Hp
       |json cn cd rd raw ta tg tr fs r _ _ _ Hacq _ Hg Hr Hp];
    rewrite Hp in *; simpl in *.
  all: try (pose proof (acquisition_events rt w cn cd) as Ha; rewrite Hacq in Ha).
  all: try (pose proof (generation_events rt w cn rd) as Hge; rewrite Hg in Hge).
  all: rewrite ?elem_of_app, ?elem_of_cons, ?elem_of_nil in Hin.
  - by destruct Hin as [|[]].
  - destruct Hin as [Hin|[|[]]]; [not_in_stage Hin Ha | done].
  - destruct Hin as [Hin|[Hin|[|[]]]];
      [not_in_stage Hin Ha | not_in_stage Hin Hge | done].
  - destruct Hin as [Hin|[Hin|[Hin|[|[]]]]];
      [not_in_stage Hin Ha | not_in_stage Hin Hge | | done].
    destruct (Hrender _ _ _ _ Hr Hin) as (-> & -> & [= ->]).
    split; [done|]. exists (ta ++ tg). by rewrite <- !app_assoc.
  - destruct Hin as [Hin|[Hin|Hin]];
      [not_in_stage Hin Ha | not_in_stage Hin Hge |].
    by destruct (Hrender _ _ _ _ Hr Hin) as (_ & _ & ?).
Qed.

Lemma render_failure_fails_witness :
  snd (POST Sample.rt (Cases.renderer_down Sample.offline)
         (Sample.request Sample.profile)) = json_error
  ∧ ∃ t, fst (POST Sample.rt (Cases.renderer_down Sample.offline)
                (Sample.request Sample.profile))
         = t ++ [RemarkProcess (lit "## Context");
                 failure_log (ThrowError (lit "Cannot process file"))].
Proof.
  apply (render_failure_fails Sample.rt (Cases.renderer_down Sample.offline)
           (Sample.request Sample.profile) (lit "## Context")
           (ThrowError (lit "Cannot process file"))).
  - vm_compute. repeat constructor.
  - reflexivity.
Defined.

End outcomes.

(** ** The request body *)

Section bodies.
Import JsString Js Route Pipeline.

Lemma index_props_keys {A} (f : A → jsval) (l : list A) (k : list N) (x : jsval) :
  (list_to_map (imap (λ i a, (decimal (N.of_nat i), f a)) l) : gmap (list N) jsval) !! k
  = Some x →
  Spec.whole_number k.
Proof.
  intros Hk. apply elem_of_list_to_map_2 in Hk.
  apply elem_of_lookup_imap in Hk as (i & a & [= -> _] & _).
  apply decimal_whole.
Qed.

(** A value that is no object has no property under a name that is not a
    number, [length] apart. *)
Lemma get_non_object (rt : runtime) (v : jsval) (k : list N) :
  (∀ o, v ≠ JObj o) → v ≠ JNull → v ≠ JUndefined →
  ¬ Spec.whole_number k → k ≠ lit "length" →
  get rt v k = inr JUndefined.
Proof.
  intros Hobj Hnull Hundef Hk Hlen.
  destruct v as [| |b|x|s|l|o]; try done; simpl.
  - rewrite bool_decide_eq_false_2 by done.
    destruct (_ !! k) as [x|] eqn:Hx; [|done].
    by apply index_props_keys in Hx.
  - rewrite bool_decide_eq_false_2 by done.
    destruct (_ !! k) as [x|] eqn:Hx; [|done].
    by apply (index_props_keys id) in Hx.
  - by destruct (Hobj o).
Qed.

Lemma not_whole_number (c : N) (k : list N) :
  is_digit c = false → ¬ Spec.whole_number (c :: k).
Proof.
  intros Hc [_ Hd]. apply Forall_cons in Hd as [Hd _]. congruence.
Qed.

(** A body that cannot be read as JSON, or that is [null], is answered
    with the error response at once: nothing but the failure is logged and
    no service is called. *)
Theorem unreadable_body_rejected (rt : runtime) (w : world) :
  (∀ e, POST rt w (inl e) = ([failure_log e], json_error))
  ∧ POST rt w (inr JNull)
    = ([failure_log (ThrowError (TypeError_message rt JNull (lit "company_name")))],
       json_error).
Proof. done. Qed.

(** A body that is a JSON boolean, number, string or array is handled as
    the empty object is: both names are undefined. *)
Theorem non_object_body (rt : runtime) (w : world) (json : jsval) :
  (∀ o, json ≠ JObj o) → json ≠ JNull → json ≠ JUndefined →
  POST rt w (inr json) = POST rt w (inr (JObj ∅)).
Proof.
  intros Hobj Hnull Hundef. unfold POST.
  rewrite (POST_try_stages rt w json JUndefined JUndefined),
          (POST_try_stages rt w (JObj ∅) JUndefined JUndefined); try done.
  all: apply get_non_object; try done.
  all: by apply not_whole_number.
Qed.

Lemma non_object_body_witness :
  POST Sample.rt Sample.offline (inr (JArr [JStr (lit "Acme")]))
  = POST Sample.rt Sample.offline (inr (JObj ∅)).
Proof. by apply (non_object_body Sample.rt Sample.offline (JArr [JStr (lit "Acme")])). Defined.

End bodies.

(** ** A company name without a string form *)

Section names.
Import JsString Js Route Pipeline.

Lemma research_unprintable (rt : runtime) (w : world) (company_name : jsval) :
  has_string_form company_name = false →
  ∃ e, researchCompanyWithPerplexity rt w company_name = ([], inl e).
Proof.
  intros Hform. unfold researchCompanyWithPerplexity, to_string.
  rewrite Hform. destruct (env_PERPLEXITY_API_KEY w) as [[|c key]|]; by eauto.
Qed.

Lemma generation_unprintable (rt : runtime) (w : world) (company_name research_data : jsval) :
  has_string_form company_name = false → truthy research_data = true →
  ∃ e, generation rt w company_name research_data = ([], inl e).
Proof.
  intros Hform Hrd.
  unfold generation, Bot.research_company, Bot.generate_hook, to_string.
  rewrite Hrd, Hform. by eauto.
Qed.

(** When [company_name] has no string form, as an object with a property
    [toString] of its own, no outside service is called, neither for the
    research nor for the headline; with a profile supplied the request is
    answered with the error response. *)
Theorem unprintable_name_calls_nothing (rt : runtime) (w : world)
    (json company_name company_data : jsval) :
  get rt json (lit "company_name") = inr company_name →
  get rt json (lit "company_data") = inr company_data →
  has_string_form company_name = false →
  stages (fst (POST rt w (inr json))) = []
  ∧ (truthy company_data = true → snd (POST rt w (inr json)) = json_error).
Proof.
  intros Hcn Hcd Hform. unfold POST.
  rewrite (POST_try_stages rt w json company_name company_data Hcn Hcd).
  destruct (truthy company_data) eqn:Htruthy.
  - rewrite acquisition_supplied by done. unfold ret. simpl. rewrite Htruthy. simpl.
    destruct (generation_unprintable rt w company_name company_data Hform Htruthy)
      as [e ->].
    done.
  - rewrite acquisition_researched by done.
    destruct (research_unprintable rt w company_name Hform) as [e ->].
    rewrite Htruthy. simpl.
    destruct (Spec.diagnostic e) as [|c message]; [done|].
    change (truthy (JStr (c :: message))) with true. simpl.
    rewrite generation_without_data by done. by rewrite rendering_nothing.
Qed.

Lemma unprintable_name_calls_nothing_witness :
  stages (fst (POST Sample.rt (Sample.with_key Sample.offline)
                 (Cases.named Cases.no_string_form))) = [].
Proof.
  by apply (unprintable_name_calls_nothing Sample.rt (Sample.with_key Sample.offline)
              (JObj {[ lit "company_name" := Cases.no_string_form ]})
              Cases.no_string_form JUndefined).
Defined.

End names.

(** ** The outcomes of the acquisition stage *)

Section acquired.
Import JsString Js Route Pipeline.

(** Whatever [researchCompanyWithPerplexity] throws, an [Error] or not,
    the handler logs it and goes on without data: the response is the 200
    response with an empty story and the message as [rawApiResponse],
    unless the message is empty, in which case nothing is left to go on
    with and the error response is sent. *)
Theorem research_failure_outcome (rt : runtime) (w : world)
    (json company_name company_data : jsval) (t : list event) (e : thrown) :
  get rt json (lit "company_name") = inr company_name →
  get rt json (lit "company_data") = inr company_data →
  truthy company_data = false →
  researchCompanyWithPerplexity rt w company_name = (t, inl e) →
  POST rt w (inr json) =
    if bool_decide (Spec.diagnostic e = []) then
      (t ++ [ConsoleError (lit "Error fetching data from Perplexity:") e;
             failure_log (ThrowError (lit "Failed to fetch company data"))],
       json_error)
    else
      (t ++ [ConsoleError (lit "Error fetching data from Perplexity:") e],
       json_ok [] [] false (JStr (Spec.diagnostic e))).
Proof.
  intros Hcn Hcd Htruthy Hres. unfold POST.
  rewrite (POST_try_stages rt w json company_name company_data Hcn Hcd).
  rewrite acquisition_researched, Hres by done. rewrite Htruthy. simpl.
  destruct (Spec.diagnostic e) as [|c message].
  - simpl. by rewrite <- app_assoc.
  - change (truthy (JStr (c :: message))) with true. simpl.
    rewrite generation_without_data by done. rewrite rendering_nothing.
    by rewrite !app_nil_r.
Qed.

Lemma research_failure_outcome_witness :
  POST Sample.rt Sample.offline (Cases.named (JStr (lit "Acme")))
  = ([ConsoleError (lit "Error fetching data from Perplexity:") (ThrowError no_api_key)],
     json_ok [] [] false (JStr no_api_key)).
Proof.
  by apply (research_failure_outcome Sample.rt Sample.offline
              (JObj {[ lit "company_name" := JStr (lit "Acme") ]})
              (JStr (lit "Acme")) JUndefined [] (ThrowError no_api_key)).
Defined.

(** The acquisition stage leaves neither data nor a message exactly when
    no profile was supplied and the research either returned a falsy value
    (the reply was the JSON text [null], [false], [0] or an empty string)
    or threw an [Error] whose message is empty. *)
Theorem nothing_acquired (rt : runtime) (w : world) (company_name company_data : jsval)
    (ta : list event) (research_data rawApiResponse : jsval) :
  acquisition rt w company_name company_data = (ta, inr (research_data, rawApiResponse)) →
  truthy research_data = false ∧ truthy rawApiResponse = false
  ↔ truthy company_data = false
    ∧ ((∃ v, researchCompanyWithPerplexity rt w company_name = (ta, inr v)
             ∧ truthy v = false)
       ∨ ∃ t, researchCompanyWithPerplexity rt w company_name = (t, inl (ThrowError []))).
Proof.
  destruct (truthy company_data) eqn:Hcd.
  - rewrite acquisition_supplied by done. intros [= <- <- <-].
    split; [intros [? _]; congruence | by intros [? _]].
  - rewrite acquisition_researched by done.
    destruct (researchCompanyWithPerplexity rt w company_name) as [t [e|v]] eqn:Hres;
      intros [= <- <- <-].
    + split.
      * intros [_ Hraw]. split; [done|]. right. exists t.
        destruct e as [[|c message]|]; by simplify_eq/=.
      * intros [_ [(v & [=] & _)|(t' & [= -> ->])]]. by split.
    + split.
      * intros [Hv _]. split; [done|]. left. by exists v.
      * intros [_ [(v' & [= ->] & Hv)|(t' & [=])]]. by split.
Qed.

Lemma nothing_acquired_witness :
  truthy JNull = false ∧ truthy JNull = false
  ↔ truthy JUndefined = false
    ∧ ((∃ v, researchCompanyWithPerplexity Sample.rt
               (Sample.answering (lit "null") Sample.offline) (JStr (lit "Acme"))
             = ([AxiosPost (JStr (lit "Acme")) (lit "pplx-key")], inr v)
             ∧ truthy v = false)
       ∨ ∃ t, researchCompanyWithPerplexity Sample.rt
                (Sample.answering (lit "null") Sample.offline) (JStr (lit "Acme"))
              = (t, inl (ThrowError []))).
Proof.
  by apply (nothing_acquired Sample.rt (Sample.answering (lit "null") Sample.offline)
              (JStr (lit "Acme")) JUndefined).
Defined.

(** A profile that the research returned is used as a supplied one is:
    after the events of the research the handler does what it does for
    the same request with that profile as [company_data], and it sends
    the same response. *)
Theorem researched_as_supplied (rt : runtime) (w : world) (o : gmap (list N) jsval)
    (t : list event) (research_data : jsval) :
  truthy (default JUndefined (o !! lit "company_data")) = false →
  researchCompanyWithPerplexity rt w (default JUndefined (o !! lit "company_name"))
  = (t, inr research_data) →
  truthy research_data = true →
  POST rt w (inr (JObj o))
  = (t ++ fst (POST rt w (inr (JObj (<[lit "company_data" := research_data]> o)))),
     snd (POST rt w (inr (JObj (<[lit "company_data" := research_data]> o))))).
Proof.
  intros Hcd Hres Hrd. unfold POST.
  rewrite (POST_try_stages rt w (JObj o) _ _ (get_object rt o _) (get_object rt o _)).
  rewrite (POST_try_stages rt w (JObj (<[lit "company_data" := research_data]> o))
             (default JUndefined (o !! lit "company_name")) research_data).
  2: { rewrite get_object. by rewrite lookup_insert_ne. }
  2: { rewrite get_object. by rewrite lookup_insert_eq. }
  rewrite acquisition_researched, Hres by done.
  rewrite acquisition_supplied by done. unfold ret. simpl. rewrite Hrd. simpl.
  destruct (generation rt w _ research_data) as [tg [e|fs]];
    [simpl; by rewrite <- app_assoc|].
  destruct (rendering w fs JNull) as [tr [e|r]]; simpl; by rewrite <- ?app_assoc.
Qed.

Lemma researched_as_supplied_witness :
  POST Sample.rt (Sample.answering (lit "{}") Sample.offline)
    (Cases.named (JStr (lit "Acme")))
  = ([AxiosPost (JStr (lit "Acme")) (lit "pplx-key")]
       ++ fst (POST Sample.rt (Sample.answering (lit "{}") Sample.offline)
                 (inr (JObj (<[lit "company_data" := JObj ∅]>
                               {[ lit "company_name" := JStr (lit "Acme") ]})))),
     snd (POST Sample.rt (Sample.answering (lit "{}") Sample.offline)
            (inr (JObj (<[lit "company_data" := JObj ∅]>
                          {[ lit "company_name" := JStr (lit "Acme") ]}))))).
Proof.
  by apply (researched_as_supplied Sample.rt (Sample.answering (lit "{}") Sample.offline)
              {[ lit "company_name" := JStr (lit "Acme") ]}
              [AxiosPost (JStr (lit "Acme")) (lit "pplx-key")] (JObj ∅)).
Defined.

End acquired.

(** ** A reply without a text *)

Section replies.
Import JsString Js Route Pipeline.

Lemma get_throws (rt : runtime) (v : jsval) (k : list N) (e : thrown) :
  get rt v k = inl e → e = ThrowError (TypeError_message rt v k).
Proof. destruct v; simpl; repeat case_match; by intros [=]. Qed.

(** [response.data.choices[0].message.content] logs nothing, and what it
    throws is the TypeError of a property read on [null] or
    [undefined]. *)
Lemma message_content_cases (rt : runtime) (data : jsval) :
  (∃ v k, message_content rt data = ([], inl (ThrowError (TypeError_message rt v k))))
  ∨ ∃ content, message_content rt data = ([], inr content).
Proof.
  unfold message_content, bind, lift.
  destruct (get rt data (lit "choices")) as [e|choices] eqn:H1.
  { apply get_throws in H1 as ->. left. by eauto. }
  destruct (get rt choices (lit "0")) as [e|choice] eqn:H2.
  { apply get_throws in H2 as ->. left. by eauto. }
  destruct (get rt choice (lit "message")) as [e|message] eqn:H3.
  { apply get_throws in H3 as ->. left. by eauto. }
  destruct (get rt message (lit "content")) as [e|content] eqn:H4.
  { apply get_throws in H4 as ->. left. by eauto. }
  right. by eauto.
Qed.

(** When the reply of the research API has no string at
    [choices[0].message.content], the research throws a TypeError right
    after the call: nothing is parsed and no parse failure is logged. *)
Theorem reply_without_text (rt : runtime) (w : world) (company_name : jsval)
    (key : list N) (data : jsval) :
  env_PERPLEXITY_API_KEY w = Some key → key ≠ [] →
  has_string_form company_name = true →
  axios_post w company_name key = inr data →
  (∀ text, message_content rt data ≠ ret (JStr text)) →
  ∃ v k, researchCompanyWithPerplexity rt w company_name
         = ([AxiosPost company_name key],
            inl (ThrowError (TypeError_message rt v k))).
Proof.
  intros Hkey Hne Hform Hpost Htext.
  unfold researchCompanyWithPerplexity, to_string.
  rewrite Hkey, Hform, Hpost. destruct key as [|c key]; [done|].
  destruct (message_content_cases rt data) as [(v & k & Hmc)|(content & Hmc)];
    simpl; rewrite Hmc; simpl.
  - by eauto.
  - destruct content as [| |b|x|s|l|o]; simpl; try by eauto.
    destruct (Htext s). by rewrite Hmc.
Qed.

Lemma reply_without_text_witness :
  ∃ v k, researchCompanyWithPerplexity Sample.rt
           (Cases.replying (JObj {[ lit "choices" := JArr [] ]}) Sample.offline)
           (JStr (lit "Acme"))
         = ([AxiosPost (JStr (lit "Acme")) (lit "pplx-key")],
            inl (ThrowError (TypeError_message Sample.rt v k))).
Proof.
  by apply (reply_without_text Sample.rt
              (Cases.replying (JObj {[ lit "choices" := JArr [] ]}) Sample.offline)
              (JStr (lit "Acme")) (lit "pplx-key") (JObj {[ lit "choices" := JArr [] ]})).
Defined.

End replies.

(** ** The order of the calls and the log line of a failure *)

Section order.
Import JsString Js Route Pipeline.

Lemma stages_app (t t' : list event) : stages (t ++ t') = stages t ++ stages t'.
Proof. apply omap_app. Qed.

Lemma research_stages (rt : runtime) (w : world) (company_name : jsval) :
  stages (fst (researchCompanyWithPerplexity rt w company_name)) = []
  ∨ stages (fst (researchCompanyWithPerplexity rt w company_name)) = [0%nat].
Proof.
  unfold researchCompanyWithPerplexity, to_string.
  destruct (env_PERPLEXITY_API_KEY w) as [[|c key]|]; [by left| |by left].
  destruct (has_string_form company_name); [|by left].
  right. simpl. destruct (axios_post w company_name (c :: key)) as [e|data]; [done|].
  simpl.
  destruct (message_content_cases rt data) as [(v & k & ->)|(content & ->)]; [done|].
  simpl. destruct (clean_message rt content) as [e|text]; [done|]. simpl.
  by destruct (JSON_parse rt text).
Qed.

Lemma acquisition_stages (rt : runtime) (w : world) (company_name company_data : jsval) :
  stages (fst (acquisition rt w company_name company_data)) = []
  ∨ stages (fst (acquisition rt w company_name company_data)) = [0%nat].
Proof.
  destruct (truthy company_data) eqn:Hcd.
  - rewrite acquisition_supplied by done. by left.
  - rewrite acquisition_researched by done.
    destruct (research_stages rt w company_name) as [H|H];
      destruct (researchCompanyWithPerplexity rt w company_name) as [t [e|v]];
      simpl in *; rewrite ?stages_app, H; by eauto.
Qed.

(** The generation stage calls nothing and leaves the story empty, or
    calls for the headline and throws, or calls for the headline and then
    for the story. *)
Lemma generation_stages (rt : runtime) (w : world) (company_name research_data : jsval) :
  (stages (fst (generation rt w company_name research_data)) = []
   ∧ ∀ fs, snd (generation rt w company_name research_data) = inr fs → fs = [])
  ∨ (stages (fst (generation rt w company_name research_data)) = [1%nat]
     ∧ ∃ e, snd (generation rt w company_name research_data) = inl e)
  ∨ stages (fst (generation rt w company_name research_data)) = [1%nat; 2%nat].
Proof.
  destruct (truthy research_data) eqn:Hrd.
  2: { rewrite generation_without_data by done. left. split; [done|].
       by intros fs [= <-]. }
  destruct (generate_hook_cases rt w company_name)
    as [[_ Hh]|[(_ & e & _ & Hh)|(_ & text & _ & Hh)]].
  - destruct (generation_cases rt w company_name research_data Hrd)
      as [(th & e & Hh' & ->)|[(th & Hh' & ->)|(th & c & hook & sd & Hh' & _ & _ & _)]];
      rewrite Hh in Hh'; simplify_eq. left. by split.
  - destruct (generation_cases rt w company_name research_data Hrd)
      as [(th & e' & Hh' & ->)|[(th & Hh' & ->)|(th & c & hook & sd & Hh' & _ & _ & _)]];
      rewrite Hh in Hh'; simplify_eq. right. left. by eauto.
  - destruct (generation_cases rt w company_name research_data Hrd)
      as [(th & e' & Hh' & ->)|[(th & Hh' & ->)
         |(th & c & hook & sd & Hh' & _ & _ & [(e' & _ & ->)|(text' & _ & ->)])]];
      rewrite Hh in Hh'; simplify_eq.
    + right. left. by eauto.
    + by right; right.
    + by right; right.
Qed.

Lemma rendering_stages (w : world) (formatted_story : list N) (rawApiResponse : jsval) :
  stages (fst (rendering w formatted_story rawApiResponse)) = []
  ∨ stages (fst (rendering w formatted_story rawApiResponse)) = [3%nat].
Proof.
  unfold rendering, markdownToHtml.
  destruct (includes formatted_story (lit "##") || includes formatted_story (lit "*"));
    [right|by left].
  simpl. by destruct (remark_process w formatted_story).
Qed.

Ltac pick_range :=
  first [ exists 0%nat, 0%nat; split; [done | lia]
        | exists 0%nat, 1%nat; split; [done | lia]
        | exists 0%nat, 2%nat; split; [done | lia]
        | exists 0%nat, 3%nat; split; [done | lia]
        | exists 0%nat, 4%nat; split; [done | lia]
        | exists 1%nat, 1%nat; split; [done | lia]
        | exists 1%nat, 2%nat; split; [done | lia]
        | exists 1%nat, 3%nat; split; [done | lia] ].

(** The services are called in the order of the pipeline, each at most
    once and none skipped: with the research as stage 0, the headline as
    1, the story as 2 and the renderer as 3, the calls of a request are a
    run of consecutive stages that begins with the research or with the
    headline. *)
Theorem calls_in_pipeline_order (rt : runtime) (w : world) (req : thrown + jsval) :
  ∃ first count, stages (fst (POST rt w req)) = seq first count
                 ∧ (first ≤ 1)%nat ∧ (first + count ≤ 4)%nat.
Proof.
  destruct (POST_paths rt w req)
    as [e _ Hp
       |json cn cd rd raw ta _ _ _ Hacq _ _ Hp
       |json cn cd rd raw ta tg e _ _ _ Hacq _ Hg Hp
       |json cn cd rd raw ta tg tr fs e _ _ _ Hacq _ Hg Hr Hp
       |json cn cd rd raw ta tg tr fs r _ _ _ Hacq _ Hg Hr Hp];
    rewrite Hp; simpl; rewrite ?stages_app; simpl; rewrite ?app_nil_r.
  all: try (pose proof (acquisition_stages rt w cn cd) as Ha; rewrite Hacq in Ha;
            simpl in Ha).
  all: try (pose proof (generation_stages rt w cn rd) as Hgs; rewrite Hg in Hgs;
            simpl in Hgs).
  all: try (pose proof (rendering_stages w fs raw) as Hrs; rewrite Hr in Hrs;
            simpl in Hrs).
  - pick_range.
  - destruct Ha as [->| ->]; pick_range.
  - destruct Ha as [->| ->], Hgs as [[-> _]|[[-> _]| ->]]; pick_range.
  - destruct Hgs as [[-> Hfs]|[[_ [e' [=]]]| ->]].
    + rewrite (Hfs fs eq_refl), rendering_nothing in Hr. injection Hr as <-.
      destruct Ha as [->| ->]; pick_range.
    + destruct Ha as [->| ->], Hrs as [->| ->]; pick_range.
  - destruct Hgs as [[-> Hfs]|[[_ [e' [=]]]| ->]].
    + rewrite (Hfs fs eq_refl), rendering_nothing in Hr. injection Hr as <-.
      destruct Ha as [->| ->]; pick_range.
    + destruct Ha as [->| ->], Hrs as [->| ->]; pick_range.
Qed.

End order.

Section logging.
Import JsString Js Route Pipeline.

Ltac other_events :=
  repeat (apply Forall_cons; split; [intros e' He'; by vm_compute in He'|]);
  try apply Forall_nil.

Lemma research_not_failure_log (rt : runtime) (w : world) (company_name : jsval) :
  Forall (λ ev, ∀ e, ev ≠ failure_log e)
    (fst (researchCompanyWithPerplexity rt w company_name)).
Proof.
  unfold researchCompanyWithPerplexity, to_string.
  destruct (env_PERPLEXITY_API_KEY w) as [[|c key]|]; [by other_events| |by other_events].
  destruct (has_string_form company_name); [|by other_events].
  simpl. destruct (axios_post w company_name (c :: key)) as [e|data]; [by other_events|].
  simpl.
  destruct (message_content_cases rt data) as [(v & k & ->)|(content & ->)];
    [by other_events|].
  simpl. destruct (clean_message rt content) as [e|text]; [by other_events|]. simpl.
  destruct (JSON_parse rt text); simpl; by other_events.
Qed.

Lemma acquisition_not_failure_log (rt : runtime) (w : world)
    (company_name company_data : jsval) :
  Forall (λ ev, ∀ e, ev ≠ failure_log e)
    (fst (acquisition rt w company_name company_data)).
Proof.
  destruct (truthy company_data) eqn:Hcd.
  - rewrite acquisition_supplied by done. by apply Forall_nil.
  - rewrite acquisition_researched by done.
    pose proof (research_not_failure_log rt w company_name) as H.
    destruct (researchCompanyWithPerplexity rt w company_name) as [t [e|v]]; [|done].
    simpl in *. apply Forall_app. split; [done|]. by other_events.
Qed.

Lemma generation_not_failure_log (rt : runtime) (w : world)
    (company_name research_data : jsval) :
  Forall (λ ev, ∀ e, ev ≠ failure_log e)
    (fst (generation rt w company_name research_data)).
Proof.
  destruct (truthy research_data) eqn:Hrd.
  2: { rewrite generation_without_data by done. by apply Forall_nil. }
  assert (Hth : ∀ th r, Bot.generate_hook rt w company_name = (th, r) →
            Forall (λ ev, ∀ e, ev ≠ failure_log e) th).
  { intros th r Hh.
    destruct (generate_hook_cases rt w company_name)
      as [[_ Hh']|[(_ & e & _ & Hh')|(_ & text & _ & Hh')]];
      rewrite Hh in Hh'; injection Hh' as -> _; by other_events. }
  destruct (generation_cases rt w company_name research_data Hrd)
    as [(th & e & Hh & ->)|[(th & Hh & ->)
       |(th & c & hook & sd & Hh & _ & _ & [(e & _ & ->)|(text & _ & ->)])]];
    simpl; try (by eapply Hth).
  all: apply Forall_app; split; [by eapply Hth | by other_events].
Qed.

Lemma rendering_not_failure_log (w : world) (formatted_story : list N)
    (rawApiResponse : jsval) :
  Forall (λ ev, ∀ e, ev ≠ failure_log e)
    (fst (rendering w formatted_story rawApiResponse)).
Proof.
  unfold rendering, markdownToHtml.
  destruct (includes formatted_story (lit "##") || includes formatted_story (lit "*"));
    [|by other_events].
  simpl. destruct (remark_process w formatted_story); simpl; by other_events.
Qed.

(** The line [Error generating newsletter:] is logged when the response
    is the error response and only then, once, as the last event of the
    request. *)
Theorem failure_logged_last (rt : runtime) (w : world) (req : thrown + jsval) :
  ∃ t, Forall (λ ev, ∀ e, ev ≠ failure_log e) t
       ∧ ((snd (POST rt w req) = json_error
           ∧ ∃ e, fst (POST rt w req) = t ++ [failure_log e])
          ∨ (status (snd (POST rt w req)) = 200 ∧ fst (POST rt w req) = t)).
Proof.
  destruct (POST_paths rt w req)
    as [e _ Hp
       |json cn cd rd raw ta _ _ _ Hacq _ _ Hp
       |json cn cd rd raw ta tg e _ _ _ Hacq _ Hg Hp
       |json cn cd rd raw ta tg tr fs e _ _ _ Hacq _ Hg Hr Hp
       |json cn cd rd raw ta tg tr fs r _ _ _ Hacq _ Hg Hr Hp];
    rewrite Hp; simpl.
  all: try (pose proof (acquisition_not_failure_log rt w cn cd) as Ha;
            rewrite Hacq in Ha; simpl in Ha).
  all: try (pose proof (generation_not_failure_log rt w cn rd) as Hgl;
            rewrite Hg in Hgl; simpl in Hgl).
  all: try (pose proof (rendering_not_failure_log w fs raw) as Hrl;
            rewrite Hr in Hrl; simpl in Hrl).
  - exists []. split; [by apply Forall_nil|]. left. by eauto.
  - exists ta. split; [done|]. left. by eauto.
  - exists (ta ++ tg). split; [by apply Forall_app|]. left. split; [done|].
    exists e. by rewrite <- app_assoc.
  - exists (ta ++ tg ++ tr). split; [by rewrite !Forall_app|]. left. split; [done|].
    exists e. by rewrite <- !app_assoc.
  - exists (ta ++ tg ++ tr). split; [by rewrite !Forall_app|]. right. split; [|done].
    by destruct (rendering_returns w fs raw tr r Hr) as (html & md & -> & _).
Qed.

End logging.

(** ** What the cleaning removes *)

Section fence_edges.
Import JsString Js Route Pipeline.

Lemma replace_rest_prefix (s : list N) :
  ∃ closing, s = replace_rest s ++ closing ∧ (closing = [] ∨ closing = fence).
Proof.
  induction s as [|c s (closing & IH & Hc)].
  - exists []. by split; [|left].
  - change (replace_rest (c :: s))
      with (if match_close (c :: s) then [] else c :: replace_rest s).
    unfold match_close. case_bool_decide as Heq.
    + exists fence. by split; [|right].
    + exists closing. split; [|done]. simpl. by rewrite <- IH.
Qed.

Lemma match_open_suffix (s r : list N) :
  match_open s = Some r →
  ∃ opening ws, s = opening ++ ws ++ r
                ∧ (opening = fence ∨ opening = fence ++ lit "json")
                ∧ Spec.all_spaces ws.
Proof.
  unfold match_open. destruct (starts_with fence s) eqn:Hs; [|done].
  apply starts_with_prefix in Hs as [r0 ->].
  change (drop 3 (fence ++ r0)) with r0.
  destruct (starts_with (lit "json") r0) eqn:Hj.
  - apply starts_with_prefix in Hj as [r1 ->].
    change (drop 4 (lit "json" ++ r1)) with r1. intros [= <-].
    destruct (skip_spaces_suffix r1) as (ws & Hr1 & Hws).
    exists (fence ++ lit "json"), ws. split; [|by split; [right|]].
    by rewrite <- !app_assoc, <- Hr1.
  - intros [= <-].
    destruct (skip_spaces_suffix r0) as (ws & Hr0 & Hws).
    exists fence, ws. split; [|by split; [left|]].
    by rewrite <- Hr0.
Qed.

Lemma trim_middle (s : list N) :
  ∃ ws1 ws2, s = ws1 ++ trim s ++ ws2 ∧ Spec.all_spaces ws1 ∧ Spec.all_spaces ws2.
Proof.
  destruct (skip_spaces_suffix s) as (ws1 & Hs & H1).
  destruct (skip_spaces_suffix (reverse (skip_spaces s))) as (ws2 & Hr & H2).
  exists ws1, (reverse ws2). split; [|split; [done|]].
  - unfold trim. rewrite <- reverse_app, <- Hr, reverse_involutive. exact Hs.
  - unfold Spec.all_spaces. by rewrite Forall_reverse.
Qed.

(** The cleaning takes away only from the two ends of the reply: an
    opening fence with or without the word [json], a closing fence, and
    white space next to them.  What is parsed is the reply between
    these, unchanged. *)
Theorem clean_removes_ends (text : list N) :
  ∃ opening ws1 ws2 closing,
    text = opening ++ ws1 ++ clean text ++ ws2 ++ closing
    ∧ (opening = [] ∨ opening = fence ∨ opening = fence ++ lit "json")
    ∧ (closing = [] ∨ closing = fence)
    ∧ Spec.all_spaces ws1 ∧ Spec.all_spaces ws2.
Proof.
  unfold clean, replace_fences.
  destruct (match_open text) as [r|] eqn:Hopen.
  - destruct (match_open_suffix text r Hopen) as (opening & ws & Htext & Hop & Hws).
    destruct (replace_rest_prefix r) as (closing & Hr & Hcl).
    destruct (trim_middle (replace_rest r)) as (ws1 & ws2 & Hm & H1 & H2).
    exists opening, (ws ++ ws1), ws2, closing.
    split; [|split; [tauto|split; [done|split; [by apply Forall_app|done]]]].
    rewrite Htext at 1. rewrite Hr at 1. rewrite Hm at 1.
    by rewrite <- !app_assoc.
  - destruct (replace_rest_prefix text) as (closing & Hr & Hcl).
    destruct (trim_middle (replace_rest text)) as (ws1 & ws2 & Hm & H1 & H2).
    exists [], ws1, ws2, closing.
    split; [|split; [tauto|done]].
    rewrite Hr at 1. rewrite Hm at 1. by rewrite <- !app_assoc.
Qed.

Lemma trim_ends_with_fence (body : list N) :
  trim (body ++ fence) = skip_spaces body ++ fence.
Proof.
  unfold trim. rewrite skip_spaces_fence, reverse_app.
  change (reverse fence) with fence. change (fence ++ ?r) with (96%N :: 96%N :: 96%N :: r).
  cbn [skip_spaces]. change (is_space 96) with false. cbn iota.
  change (96%N :: 96%N :: 96%N :: ?r) with (fence ++ r).
  rewrite reverse_app, reverse_involutive. done.
Qed.

(** White space after the closing fence, a final line break for one,
    keeps that fence in place: after an opening fence the text that goes
    to the parser is the body with the closing fence still at its end. *)
Theorem trailing_space_keeps_fence (opening ws1 body ws2 : list N) (c : N) :
  opening = lit "```json"
  ∨ opening = lit "```"
    ∧ starts_with (lit "json") (ws1 ++ body ++ fence ++ c :: ws2) = false →
  Spec.all_spaces ws1 → is_space c = true → Spec.all_spaces ws2 →
  clean (opening ++ ws1 ++ body ++ fence ++ c :: ws2) = skip_spaces body ++ fence.
Proof.
  intros Hop H1 Hc H2. unfold clean, replace_fences.
  assert (match_open (opening ++ ws1 ++ body ++ fence ++ c :: ws2)
          = Some (skip_spaces (ws1 ++ body ++ fence ++ c :: ws2))) as ->.
  { destruct Hop as [->|[-> Hj]]; [apply match_open_json | by apply match_open_plain]. }
  rewrite skip_spaces_all by done.
  rewrite (app_assoc body), skip_spaces_app, skip_spaces_fence.
  assert (skip_spaces body ++ fence ≠ []) as Hne by (by destruct (skip_spaces body)).
  destruct (skip_spaces body ++ fence) as [|x r] eqn:Hr; [done|]. rewrite <- Hr.
  rewrite replace_rest_unfenced.
  - pose proof (trim_padded [] (skip_spaces body ++ fence) (c :: ws2)) as Ht.
    rewrite app_nil_l in Ht. rewrite Ht; [|by constructor|by constructor].
    rewrite <- skip_spaces_fence, trim_skip_spaces, trim_ends_with_fence.
    by rewrite skip_spaces_fence.
  - intros p Hp. apply (f_equal last) in Hp.
    rewrite !last_app in Hp.
    change (last fence) with (Some 96%N) in Hp.
    assert (Forall (λ x, is_space x = true) (c :: ws2)) as Hall by (by constructor).
    destruct (last (c :: ws2)) as [y|] eqn:Hy.
    + apply last_Some in Hy as [l' Hy]. rewrite Hy in Hall.
      apply Forall_app in Hall as [_ Hall]. apply Forall_cons in Hall as [Hall _].
      simpl in Hp. injection Hp as ->. by vm_compute in Hall.
    + by apply last_None in Hy.
Qed.

Lemma trailing_space_keeps_fence_witness :
  clean (lit "```json" ++ [10%N] ++ lit "{}" ++ fence ++ [10%N]) = lit "{}```".
Proof.
  by apply (trailing_space_keeps_fence (lit "```json") [10%N] (lit "{}") [] 10%N);
    [left | repeat constructor | | constructor].
Defined.

End fence_edges.

(** ** Amounts that are not positive *)

Section amounts.
Import JsString Number.

(** An amount that is NaN, zero or negative is never abbreviated,
    whatever its size: with [inr] and with [usd] the helper returns the
    sign of the currency and the locale string of the value. *)
Theorem format_metrics_not_positive (rt : runtime) (value : spec_float) :
  Cases.not_positive value →
  Bot.format_metrics rt value (lit "inr")
  = Bot.rupee ++ toLocaleString rt value (lit "en-IN")
  ∧ Bot.format_metrics rt value (lit "usd")
    = lit "$" ++ toLocaleString rt value (lit "en-US").
Proof.
  intros Hv. unfold Bot.format_metrics.
  rewrite (bool_decide_eq_true_2 (lit "inr" = lit "inr")) by done.
  rewrite (bool_decide_eq_false_2 (lit "usd" = lit "inr")) by done.
  rewrite (bool_decide_eq_true_2 (lit "usd" = lit "usd")) by done.
  rewrite threshold_inr, threshold_usd.
  destruct value as [sg| [|] | |[|] m e]; try done.
Qed.

Lemma format_metrics_not_positive_witness :
  Bot.format_metrics Sample.rt (of_Z (-50000000)) (lit "inr")
  = Bot.rupee ++ toLocaleString Sample.rt (of_Z (-50000000)) (lit "en-IN")
  ∧ Bot.format_metrics Sample.rt (of_Z (-50000000)) (lit "usd")
    = lit "$" ++ toLocaleString Sample.rt (of_Z (-50000000)) (lit "en-US").
Proof.
  apply (format_metrics_not_positive Sample.rt (of_Z (-50000000))).
  vm_compute. reflexivity.
Defined.

End amounts.

(** ** The causes of the error response *)

Section causes.
Import JsString Js Route Pipeline.

Lemma research_returned (rt : runtime) (w : world) (company_name : jsval)
    (t : list event) (v : jsval) :
  researchCompanyWithPerplexity rt w company_name = (t, inr v) →
  has_string_form company_name = true.
Proof.
  intros Hres. destruct (has_string_form company_name) eqn:Hform; [done|].
  destruct (research_unprintable rt w company_name Hform) as [e He]. congruence.
Qed.

(** A profile that is truthy next to a name without a string form was
    supplied by the caller. *)
Lemma acquired_unprintable (rt : runtime) (w : world)
    (company_name company_data research_data rawApiResponse : jsval) (ta : list event) :
  acquisition rt w company_name company_data = (ta, inr (research_data, rawApiResponse)) →
  truthy research_data = true → has_string_form company_name = false →
  truthy company_data = true.
Proof.
  intros Hacq Hrd Hform. destruct (truthy company_data) eqn:Hcd; [done|].
  rewrite acquisition_researched in Hacq by done.
  destruct (researchCompanyWithPerplexity rt w company_name) as [t [e|v]] eqn:Hres.
  - injection Hacq as _ <- _. congruence.
  - apply research_returned in Hres. congruence.
Qed.

(** The error response has a cause, and what is logged with it is what
    that cause threw: the body could not be read or was [null]; the
    acquisition left neither data nor a message; [company_name] had no
    string form next to a supplied profile; the generation API rejected a
    call; the headline was empty; the markdown transform threw.  Nothing
    else makes the handler answer 500. *)
Theorem failure_has_cause (rt : runtime) (w : world) (req : thrown + jsval) :
  status (snd (POST rt w req)) = 500 →
  ∃ t e, fst (POST rt w req) = t ++ [failure_log e] ∧ failure_cause rt w req e.
Proof.
  intros Hstatus.
  destruct (POST_paths rt w req)
    as [e Hwhy Hp
       |json cn cd rd raw ta Hreq Hcn Hcd Hacq Hrd Hraw Hp
       |json cn cd rd raw ta tg e Hreq Hcn Hcd Hacq _ Hg Hp
       |json cn cd rd raw ta tg tr fs e Hreq Hcn Hcd Hacq _ Hg Hr Hp
       |json cn cd rd raw ta tg tr fs r _ _ _ Hacq _ Hg Hr Hp].
  - exists [], e. split; [by rewrite Hp|].
    destruct Hwhy as [->|(json & k & -> & Hget)];
      [by apply body_unreadable | by eapply body_not_object].
  - exists ta, (ThrowError (lit "Failed to fetch company data")).
    split; [by rewrite Hp|]. by eapply no_data.
  - exists (ta ++ tg), e. split; [by rewrite Hp, <- app_assoc|].
    destruct (truthy rd) eqn:Htruthy.
    2: { by rewrite generation_without_data in Hg. }
    destruct (generate_hook_cases rt w cn)
      as [[Hform Hh]|[(_ & e' & Hgen & Hh)|(_ & text & Hgen & Hh)]].
    + destruct (generation_cases rt w cn rd Htruthy)
        as [(th & e'' & Hh' & Hg')|[(th & Hh' & _)|(th & c & hook & sd & Hh' & _)]];
        rewrite Hh in Hh'; simplify_eq.
      rewrite Hg in Hg'. injection Hg' as -> ->.
      eapply name_unprintable; try done.
      by eapply acquired_unprintable.
    + destruct (generation_cases rt w cn rd Htruthy)
        as [(th & e'' & Hh' & Hg')|[(th & Hh' & _)|(th & c & hook & sd & Hh' & _)]];
        rewrite Hh in Hh'; simplify_eq.
      rewrite Hg in Hg'. injection Hg' as -> ->.
      apply (generation_rejected rt w _ (HookPrompt cn)); [|done].
      rewrite Hp. simpl. rewrite !elem_of_app, elem_of_cons. tauto.
    + destruct (generation_cases rt w cn rd Htruthy)
        as [(th & e'' & Hh' & Hg')|[(th & Hh' & Hg')
           |(th & c & hook & sd & Hh' & _ & _ & [(e'' & Hgs & Hg')|(text' & _ & Hg')])]];
        rewrite Hh in Hh'; simplify_eq.
      * rewrite Hg in Hg'. injection Hg' as -> ->.
        apply (headline_empty rt w _ cn text); [|done|done].
        rewrite Hp. simpl. rewrite !elem_of_app, elem_of_cons. tauto.
      * rewrite Hg in Hg'. injection Hg' as -> ->.
        apply (generation_rejected rt w _ (StoryPrompt sd)); [|done].
        rewrite Hp. simpl. rewrite !elem_of_app, !elem_of_cons. tauto.
      * by rewrite Hg in Hg'.
  - exists (ta ++ tg ++ tr), e. split; [by rewrite Hp, <- !app_assoc|].
    revert Hr. unfold rendering, markdownToHtml.
    destruct (includes fs (lit "##") || includes fs (lit "*")); [|done].
    simpl. destruct (remark_process w fs) as [e'|html] eqn:Hrp; [|done].
    intros [= <- <-].
    apply (render_rejected rt w _ fs); [|done].
    rewrite Hp. simpl. rewrite !elem_of_app, !elem_of_cons. tauto.
  - destruct (rendering_returns w fs raw tr r Hr) as (html & md & -> & _).
    by rewrite Hp in Hstatus.
Qed.

Lemma failure_has_cause_witness :
  ∃ t e, fst (POST Sample.rt (Cases.generation_down Sample.offline)
                (Sample.request Sample.profile)) = t ++ [failure_log e]
         ∧ failure_cause Sample.rt (Cases.generation_down Sample.offline)
             (Sample.request Sample.profile) e.
Proof.
  apply (failure_has_cause Sample.rt (Cases.generation_down Sample.offline)
           (Sample.request Sample.profile)).
  vm_compute. reflexivity.
Defined.

End causes.
